(** * github-notify-ext: the watch-cycle engine and the popup acknowledgement

    A shallow embedding of [src/background/index.ts] (the service worker:
    [loadSettings], [ensureViewerLogin], [buildRepoQuery], [runWatchCycle], ...)
    and of [markAsReadAndUpdate] from the popup's [App.tsx]; further, of
    the lists the popup shows ([isKindEnabled], [groupByType]), of
    [parseRepos] from the options page, and of [setupAlarms] and the alarm
    listener.

    Conventions of the embedding.
    - JavaScript strings are [string]s; template literals and [join] are
      [+:+] and [String.concat].
    - An ISO-8601 timestamp is represented by the time value (milliseconds
      since the Unix epoch) that [new Date(...)] gives for it; the text is
      recovered with [toISOString] where the code sends or stores it.
    - [chrome.storage], the module-level [runtimeState], the badge, a log
      of the requests sent to GitHub and the wall clock form one explicit
      [World]; the asynchronous functions are computations in a
      state-and-exception monad over it, and the GitHub server is an oracle
      [Remote] whose answers take time. *)

From stdpp Require Import base list strings gmap pretty sorting.
From Stdlib Require Import Ascii ZArith Lia.

Local Open Scope Z_scope.

(* ================================================================== *)
(** ** JavaScript string primitives *)

Module Js.

(** [s.startsWith(t)]. *)
Fixpoint startsWith (s t : string) : bool :=
  match t, s with
  | "", _ => true
  | String b t', String a s' => bool_decide (a = b) && startsWith s' t'
  | String _ _, "" => false
  end.

(** [s.includes(t)]: [t] occurs in [s] at some position. *)
Fixpoint includes (s t : string) : bool :=
  startsWith s t ||
  match s with
  | "" => false
  | String _ s' => includes s' t
  end.

(** White space in the sense of [String.prototype.trim], for the 8-bit
    characters of [string]: TAB, LF, VT, FF, CR and SPACE. *)
Definition isWhiteSpace (a : ascii) : bool := Ascii.is_space a.

Fixpoint trimStart (s : string) : string :=
  match s with
  | "" => ""
  | String a s' => if isWhiteSpace a then trimStart s' else s
  end.

Fixpoint trimEnd (s : string) : string :=
  match s with
  | "" => ""
  | String a s' =>
      match trimEnd s' with
      | "" => if isWhiteSpace a then "" else String a ""
      | r => String a r
      end
  end.

(** [s.trim()]. *)
Definition trim (s : string) : string := trimEnd (trimStart s).

(** [xs.join(sep)]. *)
Definition join (sep : string) (xs : list string) : string :=
  String.concat sep xs.

(** [String(n)] for an integral number. *)
Definition ofNumber (n : Z) : string := pretty n.

(** [xs.length === 0] and [xs.length > 0]. *)
Definition isEmpty {A} (xs : list A) : bool :=
  match xs with [] => true | _ :: _ => false end.

(** [Array.isArray(v) ? v : []] for a stored value [v]; [None] stands for
    any value that is not an array. *)
Definition arrayOrEmpty {A} (v : option (list A)) : list A := default [] v.

(** An insertion-ordered [Set] of strings, as [Array.from] exposes it. *)
Definition setHas (s : list string) (x : string) : bool := bool_decide (x ∈ s).
Definition setAdd (s : list string) (x : string) : list string :=
  if setHas s x then s else s ++ [x].
Definition newSet (xs : list string) : list string := foldl setAdd [] xs.

End Js.

(* ================================================================== *)
(** ** Dates: [Date.prototype.toISOString] *)

Module Date.

Definition msPerDay : Z := 86400000.

(** Zero-padded decimal of a non-negative number, at least [width] digits. *)
Definition pad (width : nat) (n : Z) : string :=
  let s := Js.ofNumber n in
  String.concat "" (replicate (width - String.length s) "0") +:+ s.

(** Proleptic Gregorian (year, month, day) of a day number counted from
    1970-01-01. *)
Definition civil (day : Z) : Z * Z * Z :=
  let z := day + 719468 in
  let era := z `div` 146097 in
  let doe := z - era * 146097 in
  let yoe := (doe - doe `div` 1460 + doe `div` 36524 - doe `div` 146096) `div` 365 in
  let doy := doe - (365 * yoe + yoe `div` 4 - yoe `div` 100) in
  let mp := (5 * doy + 2) `div` 153 in
  let d := doy - (153 * mp + 2) `div` 5 + 1 in
  let m := if mp <? 10 then mp + 3 else mp - 9 in
  let y := yoe + era * 400 + (if m <=? 2 then 1 else 0) in
  (y, m, d).

Definition yearText (y : Z) : string :=
  if (0 <=? y) && (y <=? 9999) then pad 4 y
  else (if y <? 0 then "-" else "+") +:+ pad 6 (Z.abs y).

(** [new Date(t).toISOString()]. *)
Definition toISOString (t : Z) : string :=
  let '(y, m, d) := civil (t `div` msPerDay) in
  let r := t `mod` msPerDay in
  yearText y +:+ "-" +:+ pad 2 m +:+ "-" +:+ pad 2 d +:+ "T" +:+
  pad 2 (r `div` 3600000) +:+ ":" +:+ pad 2 ((r `div` 60000) `mod` 60) +:+ ":" +:+
  pad 2 ((r `div` 1000) `mod` 60) +:+ "." +:+ pad 3 (r `mod` 1000) +:+ "Z".

End Date.

(* ================================================================== *)
(** ** Data model *)

Module WatchTargetRepo.
Record t := mk { owner : string; name : string }.
End WatchTargetRepo.

Module Settings.
Record t := mk {
  pat : string;
  repos : list WatchTargetRepo.t;
  intervalMinutes : Z;
  enableNewItems : bool;
  enableMentions : bool;
  enableMentionThreads : bool;
  enableAssigneeComments : bool;
}.
End Settings.

Definition DEFAULT_INTERVAL_MINUTES : Z := 5.

Inductive NotificationKind := KNew | KMention | KThread | KAssignee.

(** The text of a kind, as a template literal interpolates it. *)
Definition kindText (k : NotificationKind) : string :=
  match k with
  | KNew => "new" | KMention => "mention" | KThread => "thread" | KAssignee => "assignee"
  end.

Module StoredNotification.
Record t := mk {
  id : string;
  kind : NotificationKind;
  isPullRequest : bool;
  owner : string;
  repo : string;
  number : Z;
  title : string;
  url : string;
  detectedAt : string;
}.
End StoredNotification.

(** *** GraphQL response shapes

    A field the code guards with [?.], [??] or [typeof] is optional. *)

Module Repository.
Record t := mk { name : option string; ownerLogin : option string }.
End Repository.

(** The fields that [toStored] reads from a node of either query.
    [typename] is [__typename], which the code tests although neither query
    selects it: [None] when the response does not carry it. *)
Module NodeCore.
Record t := mk {
  typename : option string;
  id : option string;
  number : option Z;
  title : option string;
  url : option string;
  repository : option Repository.t;
}.
End NodeCore.

Module Comment.
Record t := mk { body : option string; createdAt : Z; updatedAt : Z }.
End Comment.

(** An issue or pull request returned by the search. *)
Module Item.
Record t := mk {
  core : NodeCore.t;
  createdAt : Z;
  updatedAt : Z;
  assignees : list string;
  body : option string;
  comments : list Comment.t;
}.
End Item.

Module ThreadComment.
Record t := mk { id : option string; body : option string; createdAt : Z }.
End ThreadComment.

Module ReviewThread.
Record t := mk {
  id : option string;
  isResolved : bool;
  comments : list ThreadComment.t;
}.
End ReviewThread.

(** A pull request returned by the review-thread lookup. *)
Module PullRequest.
Record t := mk { core : NodeCore.t; reviewThreads : list ReviewThread.t }.
End PullRequest.

(** An element of [mentionThreadItems]. *)
Module ThreadItem.
Record t := mk {
  pr : PullRequest.t;
  thread : ReviewThread.t;
  lastComment : ThreadComment.t;
}.
End ThreadItem.

(* ================================================================== *)
(** ** Query Builder *)

Definition repoTerm (r : WatchTargetRepo.t) : string :=
  "repo:" +:+ WatchTargetRepo.owner r +:+ "/" +:+ WatchTargetRepo.name r.

Definition conditionPart (lastCheckedAt viewerLogin : string) : string :=
  Js.join " OR "
    [ "created:>" +:+ lastCheckedAt;
      "mentions:" +:+ viewerLogin;
      "assignee:" +:+ viewerLogin ].

Definition buildRepoQuery
    (repos : list WatchTargetRepo.t) (lastCheckedAt viewerLogin : string) : string :=
  let repoPart :=
    if Js.isEmpty repos then ""
    else "(" +:+ Js.join " OR " (repoTerm <$> repos) +:+ ")" in
  Js.trim (repoPart +:+ " is:open (" +:+ conditionPart lastCheckedAt viewerLogin +:+ ")").

(* ================================================================== *)
(** ** Classifier *)

(** [t && t.includes(token)] for an optional text. *)
Definition textIncludes (t : option string) (token : string) : bool :=
  match t with
  | Some s => negb (bool_decide (s = "")) && Js.includes s token
  | None => false
  end.

(** [(body as string)?.includes(token)], read as a condition. *)
Definition bodyIncludes (body : option string) (token : string) : bool :=
  match body with
  | Some s => Js.includes s token
  | None => false
  end.

Definition mentionToken (viewerLogin : string) : string := "@" +:+ viewerLogin.

(** The temporary arrays of the first pass. *)
Module Buckets.
Record t := mk {
  newItems : list Item.t;
  mentionItems : list Item.t;
  assigneeCommentItems : list Item.t;
  updatedPrIds : list (option string);
}.
Definition empty : t := mk [] [] [] [].
End Buckets.

Section Classifier.
Variable settings : Settings.t.
Variable lastCheckedAt : Z.
Variable viewerLogin : string.

Definition isNew (node : Item.t) : bool := lastCheckedAt <? Item.createdAt node.

Definition hasAssigneeMe (node : Item.t) : bool :=
  existsb (λ a, bool_decide (a = viewerLogin)) (Item.assignees node).

Definition hasNewComment (node : Item.t) : bool :=
  existsb (λ c, lastCheckedAt <? Comment.updatedAt c) (Item.comments node).

Definition textTargets (node : Item.t) : list (option string) :=
  Item.body node :: ((λ c, Some (default "" (Comment.body c))) <$> Item.comments node).

Definition hasMention (node : Item.t) : bool :=
  existsb (λ t, textIncludes t (mentionToken viewerLogin)) (textTargets node).

Definition isPR (node : Item.t) : bool :=
  bool_decide (NodeCore.typename (Item.core node) = Some "PullRequest").

(** One iteration of [for (const node of issuesAndPrs)]. *)
Definition classifyItem (b : Buckets.t) (node : Item.t) : Buckets.t :=
  let newItems :=
    if Settings.enableNewItems settings && isNew node
    then Buckets.newItems b ++ [node] else Buckets.newItems b in
  let mentionItems :=
    if Settings.enableMentions settings && hasMention node
    then Buckets.mentionItems b ++ [node] else Buckets.mentionItems b in
  let assigneeCommentItems :=
    if Settings.enableAssigneeComments settings && hasAssigneeMe node && hasNewComment node
    then Buckets.assigneeCommentItems b ++ [node] else Buckets.assigneeCommentItems b in
  let updatedPrIds :=
    if isPR node && (lastCheckedAt <? Item.updatedAt node)
    then Buckets.updatedPrIds b ++ [NodeCore.id (Item.core node)]
    else Buckets.updatedPrIds b in
  Buckets.mk newItems mentionItems assigneeCommentItems updatedPrIds.

Definition classifyItems (nodes : list Item.t) : Buckets.t :=
  foldl classifyItem Buckets.empty nodes.

Definition hadMentionBefore (comments : list ThreadComment.t) : bool :=
  existsb
    (λ c, (ThreadComment.createdAt c <=? lastCheckedAt)
          && bodyIncludes (ThreadComment.body c) (mentionToken viewerLogin))
    comments.

(** One iteration of [for (const thread of threads)]: the item pushed to
    [mentionThreadItems], if any. *)
Definition classifyThread (pr : PullRequest.t) (thread : ReviewThread.t)
    : option ThreadItem.t :=
  if ReviewThread.isResolved thread then None
  else
    let comments := ReviewThread.comments thread in
    match last comments with
    | None => None
    | Some lastComment =>
        if hadMentionBefore comments
           && (lastCheckedAt <? ThreadComment.createdAt lastComment)
        then Some (ThreadItem.mk pr thread lastComment)
        else None
    end.

Definition classifyPullRequest (pr : PullRequest.t) : list ThreadItem.t :=
  omap (classifyThread pr) (PullRequest.reviewThreads pr).

Definition classifyThreads (prs : list PullRequest.t) : list ThreadItem.t :=
  prs ≫= classifyPullRequest.

End Classifier.

(* ================================================================== *)
(** ** Notification Store *)

(** [toStored]; [detectedAt] is the [nowIso] it closes over. *)
Definition toStored (detectedAt : string) (node : NodeCore.t) (kind : NotificationKind)
    : option StoredNotification.t :=
  match NodeCore.repository node with
  | None => None
  | Some repository =>
      let isPullRequest := bool_decide (NodeCore.typename node = Some "PullRequest") in
      let owner := default "" (Repository.ownerLogin repository) in
      let repo := default "" (Repository.name repository) in
      let number := default 0 (NodeCore.number node) in
      let title := default "" (NodeCore.title node) in
      let url := default "" (NodeCore.url node) in
      let nodeId :=
        default (owner +:+ "/" +:+ repo +:+ "#" +:+ Js.ofNumber number) (NodeCore.id node) in
      let id := kindText kind +:+ ":" +:+ nodeId in
      Some (StoredNotification.mk id kind isPullRequest owner repo number title url detectedAt)
  end.

(** The four loops that fill [collected]. *)
Definition collect (detectedAt : string) (b : Buckets.t) (threads : list ThreadItem.t)
    : list StoredNotification.t :=
  omap (λ n, toStored detectedAt (Item.core n) KNew) (Buckets.newItems b)
  ++ omap (λ n, toStored detectedAt (Item.core n) KMention) (Buckets.mentionItems b)
  ++ omap (λ n, toStored detectedAt (Item.core n) KAssignee) (Buckets.assigneeCommentItems b)
  ++ omap (λ t, toStored detectedAt (PullRequest.core (ThreadItem.pr t)) KThread) threads.

(** One iteration of [for (const n of collected)], on [(merged, addedCount)];
    [existingIds] is the set built once from the stored list. *)
Definition mergeStep (existingIds : gset string)
    (acc : list StoredNotification.t * Z) (n : StoredNotification.t)
    : list StoredNotification.t * Z :=
  if bool_decide (StoredNotification.id n ∈ existingIds) then acc
  else (acc.1 ++ [n], acc.2 + 1).

Definition mergeNotifications (existing collected : list StoredNotification.t)
    : list StoredNotification.t * Z :=
  let existingIds : gset string := list_to_set (StoredNotification.id <$> existing) in
  foldl (mergeStep existingIds) (existing, 0) collected.

(** The text [setBadge] puts on the icon. *)
Definition badgeTextOf (count : Z) : string :=
  if 0 <? count then Js.ofNumber count else "".

(* ================================================================== *)
(** ** The world: runtime state, storage, badge, requests, clock *)

Module Runtime.
Record t := mk { viewerLogin : option string; lastCheckedAt : option Z }.
Definition initial : t := mk None None.
End Runtime.

(** [chrome.storage.sync], after the defaults of [loadSettings] are applied.
    [repos = None] stands for a stored value that is not an array. *)
Module Sync.
Record t := mk {
  pat : string;
  repos : option (list WatchTargetRepo.t);
  intervalMinutes : Z;
  enableNewItems : bool;
  enableMentions : bool;
  enableMentionThreads : bool;
  enableAssigneeComments : bool;
}.
End Sync.

(** [chrome.storage.local], after the defaults of the readers are applied. *)
Module Local.
Record t := mk {
  notifications : option (list StoredNotification.t);
  readNotificationIds : option (list string);
  badgeCount : Z;
  lastCheckedAt : option Z;
}.
End Local.

Inductive Query :=
  | GetViewer
  | WatchIssuesAndPRs (repoQuery lastCheckedAt viewerLogin : string)
  | WatchReviewThreads (prIds : list (option string)) (lastCheckedAt viewerLogin : string).

Module Request.
Record t := mk { authorization : string; query : Query }.
End Request.

(** The GitHub server during one cycle. An answer [None] is a rejected
    request (network, authentication, rate limit, malformed response); a
    [None] inside a node list is a [null] node. [latency] is the time, in
    milliseconds, that passes while a request is awaited. *)
Module Remote.
Record t := mk {
  viewer : Request.t → option string;
  search : Request.t → option (list (option Item.t));
  nodes : Request.t → option (list (option PullRequest.t));
  latency : Request.t → N;
}.
End Remote.

Module World.
Record t := mk {
  runtimeState : Runtime.t;
  sync : Sync.t;
  local : Local.t;
  badgeText : string;
  badgeBackgroundColor : option string;
  requests : list Request.t;
  clock : Z;
}.

Definition setRuntimeState (r : Runtime.t) (w : t) : t :=
  mk r (sync w) (local w) (badgeText w) (badgeBackgroundColor w) (requests w) (clock w).

Definition setLocal (l : Local.t) (w : t) : t :=
  mk (runtimeState w) (sync w) l (badgeText w) (badgeBackgroundColor w) (requests w) (clock w).

Definition setBadge (text : string) (color : option string) (w : t) : t :=
  mk (runtimeState w) (sync w) (local w) text color (requests w) (clock w).

(** A request goes out and [elapsed] milliseconds pass. *)
Definition addRequest (r : Request.t) (elapsed : N) (w : t) : t :=
  mk (runtimeState w) (sync w) (local w) (badgeText w) (badgeBackgroundColor w)
     (requests w ++ [r]) (clock w + Z.of_N elapsed).

(** The checkpoint the engine works with, and the stored notifications and
    read ids as the readers normalise them. *)
Definition checkpoint (w : t) : option Z := Runtime.lastCheckedAt (runtimeState w).
Definition persistedCheckpoint (w : t) : option Z := Local.lastCheckedAt (local w).
Definition stored (w : t) : list StoredNotification.t :=
  Js.arrayOrEmpty (Local.notifications (local w)).
Definition readIds (w : t) : list string :=
  Js.arrayOrEmpty (Local.readNotificationIds (local w)).
Definition badge (w : t) : Z := Local.badgeCount (local w).
End World.

Inductive Exception :=
  | RequestRejected (q : Query)
  | TypeError.

Inductive Result (A : Type) :=
  | Ok (a : A)
  | Throw (e : Exception).
Arguments Ok {A} a.
Arguments Throw {A} e.

(** Asynchronous code: a state transformer that returns or throws. *)
Definition M (A : Type) : Type := World.t → Result A * World.t.

Definition ret {A} (a : A) : M A := λ w, (Ok a, w).
Definition throw {A} (e : Exception) : M A := λ w, (Throw e, w).
Definition bind {A B} (m : M A) (k : A → M B) : M B :=
  λ w, match m w with
       | (Ok a, w') => k a w'
       | (Throw e, w') => (Throw e, w')
       end.
Definition get : M World.t := λ w, (Ok w, w).
Definition modify (f : World.t → World.t) : M unit := λ w, (Ok tt, f w).

Notation "'let*' x := m 'in' k" := (bind m (λ x, k))
  (at level 10, x name, m at level 100, k at level 200).
Notation "m >> k" := (bind m (λ _, k)) (at level 90, right associativity).

(** [new Date()]. *)
Definition currentTime : M Z := λ w, (Ok (World.clock w), w).

(** [setBadge]. *)
Definition setBadge (count : Z) : M unit :=
  let* w := get in
  modify (World.setBadge (badgeTextOf count)
            (if 0 <? count then Some "#d93025" else World.badgeBackgroundColor w)).

(** A GraphQL client is its authorization header. *)
Definition createGithubClient (pat : string) : string := "token " +:+ pat.

(** Awaiting a query: the request goes out, then the server answers or the
    promise rejects. *)
Definition send {A} (remote : Remote.t) (answer : Request.t → option A)
    (client : string) (q : Query) : M A :=
  let r := Request.mk client q in
  modify (World.addRequest r (Remote.latency remote r)) >>
  match answer r with
  | Some a => ret a
  | None => throw (RequestRejected q)
  end.

(** *** [loadSettings] *)

(** The callback of [chrome.storage.sync.get]. *)
Definition settingsOfItems (items : Sync.t) : option Settings.t :=
  match Sync.repos items with
  | Some repos =>
      if bool_decide (Sync.pat items = "") then None
      else Some (Settings.mk
             (Sync.pat items) repos
             (if Sync.intervalMinutes items =? 0 then DEFAULT_INTERVAL_MINUTES
              else Sync.intervalMinutes items)
             (Sync.enableNewItems items) (Sync.enableMentions items)
             (Sync.enableMentionThreads items) (Sync.enableAssigneeComments items))
  | None => None
  end.

Definition loadSettings : M (option Settings.t) :=
  let* w := get in ret (settingsOfItems (World.sync w)).

(** *** [saveLastCheckedAt] *)

Definition saveLastCheckedAt (iso : Z) : M unit :=
  modify (λ w, World.setRuntimeState
                 (Runtime.mk (Runtime.viewerLogin (World.runtimeState w)) (Some iso)) w) >>
  modify (λ w, let l := World.local w in
               World.setLocal
                 (Local.mk (Local.notifications l) (Local.readNotificationIds l)
                    (Local.badgeCount l) (Some iso)) w).

(** *** [ensureViewerLogin] *)

Definition ensureViewerLogin (remote : Remote.t) (client : string) : M string :=
  let* w := get in
  let fetch : M string :=
    let* login := send remote (Remote.viewer remote) client GetViewer in
    modify (λ w, World.setRuntimeState
                   (Runtime.mk (Some login) (Runtime.lastCheckedAt (World.runtimeState w))) w) >>
    ret login in
  match Runtime.viewerLogin (World.runtimeState w) with
  | Some login => if bool_decide (login = "") then fetch else ret login
  | None => fetch
  end.

(** *** The store merge of [runWatchCycle] *)

(** The callback of [chrome.storage.local.get]: the items to write back and
    the new badge count. *)
Definition mergedItems (items : Local.t) (collected : list StoredNotification.t)
    : Local.t :=
  let existing := Js.arrayOrEmpty (Local.notifications items) in
  let '(merged, addedCount) := mergeNotifications existing collected in
  let newBadgeCount := Local.badgeCount items + addedCount in
  Local.mk (Some merged) (Local.readNotificationIds items) newBadgeCount
    (Local.lastCheckedAt items).

Definition storeMerge (collected : list StoredNotification.t) : M unit :=
  let* w := get in
  let items := mergedItems (World.local w) collected in
  modify (World.setLocal items) >>
  setBadge (Local.badgeCount items).

(** [if (collected.length > 0) { ... }]. *)
Definition mergeCollected (collected : list StoredNotification.t) : M unit :=
  if Js.isEmpty collected then ret tt else storeMerge collected.

(** Dereferencing the nodes of a response: a [null] node raises. *)
Fixpoint allNodes {A} (nodes : list (option A)) : M (list A) :=
  match nodes with
  | [] => ret []
  | None :: _ => throw TypeError
  | Some n :: rest => let* ns := allNodes rest in ret (n :: ns)
  end.

(** *** [runWatchCycle] *)

(** Which [return] a cycle that did not throw left through. *)
Inductive CycleExit := Skipped | Completed.

Definition runWatchCycle (remote : Remote.t) : M CycleExit :=
  let* loaded := loadSettings in
  match loaded with
  | None => ret Skipped
  | Some settings =>
    if bool_decide (Settings.pat settings = "") || Js.isEmpty (Settings.repos settings)
    then ret Skipped
    else
      let client := createGithubClient (Settings.pat settings) in
      let* nowIso := currentTime in
      let* w := get in
      let lastCheckedAt := default 0 (Runtime.lastCheckedAt (World.runtimeState w)) in
      let lastCheckedAtIso := Date.toISOString lastCheckedAt in
      let* viewerLogin := ensureViewerLogin remote client in
      let repoQuery := buildRepoQuery (Settings.repos settings) lastCheckedAtIso viewerLogin in
      let* searchResult :=
        send remote (Remote.search remote) client
             (WatchIssuesAndPRs repoQuery lastCheckedAtIso viewerLogin) in
      let* issuesAndPrs := allNodes searchResult in
      let buckets := classifyItems settings lastCheckedAt viewerLogin issuesAndPrs in
      let* mentionThreadItems :=
        if Settings.enableMentionThreads settings
           && negb (Js.isEmpty (Buckets.updatedPrIds buckets))
        then
          let* reviewResult :=
            send remote (Remote.nodes remote) client
                 (WatchReviewThreads (Buckets.updatedPrIds buckets)
                                     lastCheckedAtIso viewerLogin) in
          let* prs := allNodes reviewResult in
          ret (classifyThreads lastCheckedAt viewerLogin prs)
        else ret [] in
      let collected := collect (Date.toISOString nowIso) buckets mentionThreadItems in
      mergeCollected collected >>
      saveLastCheckedAt nowIso >>
      ret Completed
  end.

(* ================================================================== *)
(** ** Popup: [markAsReadAndUpdate] *)

(** The callback of [chrome.storage.local.get] and the write it makes; the
    popup's component state, which is set to the same values, is left out. *)
Definition markAsReadAndUpdate (id : string) (w : World.t) : World.t :=
  let items := World.local w in
  let notificationsInStore := Js.arrayOrEmpty (Local.notifications items) in
  let readList := Js.arrayOrEmpty (Local.readNotificationIds items) in
  let readSet := Js.newSet readList in
  let readSet := if negb (Js.setHas readSet id) then Js.setAdd readSet id else readSet in
  let remaining :=
    List.filter (λ n, negb (Js.setHas readSet (StoredNotification.id n)))
                notificationsInStore in
  let newBadgeCount := Z.max 0 (Local.badgeCount items - 1) in
  World.setBadge (badgeTextOf newBadgeCount) (World.badgeBackgroundColor w)
    (World.setLocal
       (Local.mk (Some remaining) (Some readSet) newBadgeCount (Local.lastCheckedAt items))
       w).

(** The worlds after each of a sequence of acknowledgements. *)
Fixpoint acknowledgeAll (ids : list string) (w : World.t) : list World.t :=
  match ids with
  | [] => []
  | id :: rest =>
      let w' := markAsReadAndUpdate id w in
      w' :: acknowledgeAll rest w'
  end.

(* ================================================================== *)
(** ** Vocabulary of the statements *)

(** The text after the repository clause. *)
Definition openAndConditions (C login : string) : string :=
  "is:open (created:>" +:+ C +:+ " OR mentions:" +:+ login
  +:+ " OR assignee:" +:+ login +:+ ")".

(** The tests under which the first pass appends a node to each array. *)
Definition wantsNew (settings : Settings.t) (C : Z) (n : Item.t) : bool :=
  Settings.enableNewItems settings && isNew C n.
Definition wantsMention (settings : Settings.t) (login : string) (n : Item.t) : bool :=
  Settings.enableMentions settings && hasMention login n.
Definition wantsAssignee (settings : Settings.t) (C : Z) (login : string) (n : Item.t) : bool :=
  Settings.enableAssigneeComments settings && hasAssigneeMe login n && hasNewComment C n.
Definition needsThreadCheck (C : Z) (n : Item.t) : bool :=
  isPR n && (C <? Item.updatedAt n).


(** The ids of a list of notifications, in order. *)
Definition ids (l : list StoredNotification.t) : list string :=
  StoredNotification.id <$> l.

(** A candidate the merge appends: its id is not among the stored ones. *)
Definition fresh (existing : list StoredNotification.t) (n : StoredNotification.t) : bool :=
  negb (bool_decide (StoredNotification.id n ∈ ids existing)).

(** The number of entries of a list that carry the id [i]. *)
Definition countId (i : string) (l : list StoredNotification.t) : nat :=
  length (List.filter (λ n, bool_decide (StoredNotification.id n = i)) l).

(** What awaiting requests and resolving the viewer can change: the cached
    login, the request log and the clock, which only moves forward. *)
Definition frame (w w' : World.t) : Prop :=
  World.sync w' = World.sync w
  ∧ World.local w' = World.local w
  ∧ World.checkpoint w' = World.checkpoint w
  ∧ World.badgeText w' = World.badgeText w
  ∧ World.clock w ≤ World.clock w'
  ∧ ∃ sent, World.requests w' = World.requests w ++ sent.

(** What a cycle that ran to its end did: it resolved the viewer and sent
    the search with the checkpoint it started from, reaching a world [w1];
    from there it merged what it collected and saved the time at which it
    started. *)
Definition completedFrom (remote : Remote.t) (w w' : World.t) : Prop :=
  ∃ settings login items threadItems w1,
    settingsOfItems (World.sync w) = Some settings
    ∧ Settings.repos settings ≠ []
    ∧ frame w w1
    ∧ let cp := default 0 (World.checkpoint w) in
      let iso := Date.toISOString cp in
      let searchRequest :=
        Request.mk (createGithubClient (Settings.pat settings))
          (WatchIssuesAndPRs (buildRepoQuery (Settings.repos settings) iso login) iso login) in
      searchRequest ∈ World.requests w1
      ∧ Remote.search remote searchRequest = Some (Some <$> items)
      ∧ (threadItems = [] ∨ ∃ prs, threadItems = classifyThreads cp login prs)
      ∧ let collected :=
          collect (Date.toISOString (World.clock w))
                  (classifyItems settings cp login items) threadItems in
        w' = (saveLastCheckedAt (World.clock w) (mergeCollected collected w1).2).2.

(** The clock is not behind the checkpoint: the invariant under which
    saving the start time of a cycle moves the checkpoint forward. *)
Definition checkpointNotAhead (w : World.t) : Prop :=
  default 0 (World.checkpoint w) ≤ World.clock w.


(* ================================================================== *)
(** ** Scenarios *)

Module Scenario.

(** 2024-01-01T00:00:00Z and 2024-01-02T00:00:00Z. *)
Definition jan1 : Z := 1704067200000.
Definition jan2 : Z := 1704153600000.

Definition repository : Repository.t := Repository.mk (Some "repo1") (Some "owner1").

Definition sync : Sync.t :=
  Sync.mk "ghp_token" (Some [WatchTargetRepo.mk "owner1" "repo1"]) 5 true true true true.

Definition emptyLocal : Local.t := Local.mk (Some []) (Some []) 0 None.

(** A service worker that last polled on January 1st; it is now January 2nd. *)
Definition world : World.t :=
  World.mk (Runtime.mk None (Some jan1)) sync emptyLocal "" None [] jan2.

(** A restarted service worker: storage remembers January 1st, the
    runtime state does not. *)
Definition restarted : World.t :=
  World.mk Runtime.initial sync (Local.mk (Some []) (Some []) 0 (Some jan1)) "" None [] jan2.

(** A non-empty credential and an empty list of target repositories. *)
Definition noRepos : World.t :=
  World.mk Runtime.initial
    (Sync.mk "ghp_token" (Some []) 5 true true true true) emptyLocal "" None [] jan2.

(** *** One pull request with two unresolved threads that both qualify *)

Definition prCore : NodeCore.t :=
  NodeCore.mk (Some "PullRequest") (Some "PR_1") (Some 7) (Some "Fix the parser")
    (Some "https://github.com/owner1/repo1/pull/7") (Some repository).

Definition prItem : Item.t :=
  Item.mk prCore (jan1 - 86400000) (jan1 + 3600000) [] (Some "Fixes the parser.") [].

Definition thread1 : ReviewThread.t :=
  ReviewThread.mk (Some "T_1") false
    [ ThreadComment.mk (Some "C_1") (Some "@me can you check this?") (jan1 - 7200000);
      ThreadComment.mk (Some "C_2") (Some "Pushed a fix.") (jan1 + 1800000) ].

Definition thread2 : ReviewThread.t :=
  ReviewThread.mk (Some "T_2") false
    [ ThreadComment.mk (Some "C_3") (Some "cc @me") (jan1 - 3600000);
      ThreadComment.mk (Some "C_4") (Some "Done as well.") (jan1 + 3600000) ].

Definition pullRequest : PullRequest.t := PullRequest.mk prCore [thread1; thread2].

Definition twoThreads : Remote.t :=
  Remote.mk (λ _, Some "me") (λ _, Some [Some prItem]) (λ _, Some [Some pullRequest])
    (λ _, 250%N).

(** *** One old issue whose body mentions the viewer *)

Definition issueCore : NodeCore.t :=
  NodeCore.mk (Some "Issue") (Some "I_1") (Some 3) (Some "Crash on start")
    (Some "https://github.com/owner1/repo1/issues/3") (Some repository).

Definition issue : Item.t :=
  Item.mk issueCore (jan1 - 2678400000) (jan1 - 2678400000) []
    (Some "It crashes, ping @me") [].

Definition oneMention : Remote.t :=
  Remote.mk (λ _, Some "me") (λ _, Some [Some issue]) (λ _, Some []) (λ _, 250%N).

(** The issue is found, opened from the popup, found again by the next
    cycle, and is about to be opened again. *)
Definition found : World.t := (runWatchCycle oneMention world).2.
Definition opened : World.t := markAsReadAndUpdate "mention:I_1" found.
Definition foundAgain : World.t := (runWatchCycle oneMention opened).2.

(** *** Servers that fail *)

Definition noViewer : Remote.t :=
  Remote.mk (λ _, None) (λ _, Some [Some issue]) (λ _, Some []) (λ _, 250%N).
Definition noSearch : Remote.t :=
  Remote.mk (λ _, Some "me") (λ _, None) (λ _, Some []) (λ _, 250%N).
Definition nullItem : Remote.t :=
  Remote.mk (λ _, Some "me") (λ _, Some [Some issue; None]) (λ _, Some []) (λ _, 250%N).
Definition noReview : Remote.t :=
  Remote.mk (λ _, Some "me") (λ _, Some [Some prItem]) (λ _, None) (λ _, 250%N).
Definition nullPullRequest : Remote.t :=
  Remote.mk (λ _, Some "me") (λ _, Some [Some prItem]) (λ _, Some [None]) (λ _, 250%N).

End Scenario.

(* ================================================================== *)
(** ** Popup: the lists it shows *)

(** [xs.sort(cmp)]: the stable sort that ECMAScript prescribes (elements
    that compare equal keep their order), computed by insertion. [cmp x y]
    negative or zero keeps [x] before [y]. *)
Module JsSort.
Fixpoint insert {A} (cmp : A → A → Z) (x : A) (l : list A) : list A :=
  match l with
  | [] => [x]
  | y :: l' => if cmp x y <=? 0 then x :: y :: l' else y :: insert cmp x l'
  end.
Definition sort {A} (cmp : A → A → Z) (l : list A) : list A :=
  foldr (insert cmp) [] l.
End JsSort.

Module PopupSettings.
Record t := mk {
  enableNewItems : bool;
  enableMentions : bool;
  enableMentionThreads : bool;
  enableAssigneeComments : bool;
}.
End PopupSettings.

Module GroupedNotifications.
Record t := mk { prs : list StoredNotification.t; issues : list StoredNotification.t }.
End GroupedNotifications.

(** The callback of the popup's [chrome.storage.sync.get]. *)
Definition popupSettingsOf (items : Sync.t) : PopupSettings.t :=
  PopupSettings.mk (Sync.enableNewItems items) (Sync.enableMentions items)
    (Sync.enableMentionThreads items) (Sync.enableAssigneeComments items).

(** [isKindEnabled]; [None] while the settings are not loaded. *)
Definition isKindEnabled (settings : option PopupSettings.t) (kind : NotificationKind) : bool :=
  match settings with
  | None => true
  | Some s =>
      match kind with
      | KNew => PopupSettings.enableNewItems s
      | KMention => PopupSettings.enableMentions s
      | KThread => PopupSettings.enableMentionThreads s
      | KAssignee => PopupSettings.enableAssigneeComments s
      end
  end.

Definition visibleNotifications (settings : option PopupSettings.t)
    (notifications : list StoredNotification.t) : list StoredNotification.t :=
  List.filter (λ n, isKindEnabled settings (StoredNotification.kind n)) notifications.

Section GroupByType.
(** [new Date(s).getTime()] for the text of a valid date. *)
Variable time : string → Z.

Definition byDetectedDesc (a b : StoredNotification.t) : Z :=
  time (StoredNotification.detectedAt b) - time (StoredNotification.detectedAt a).

Definition groupByType (items : list StoredNotification.t) : GroupedNotifications.t :=
  let prs := List.filter (λ n, StoredNotification.isPullRequest n) items in
  let issues := List.filter (λ n, negb (StoredNotification.isPullRequest n)) items in
  GroupedNotifications.mk (JsSort.sort byDetectedDesc prs) (JsSort.sort byDetectedDesc issues).

End GroupByType.

(* ================================================================== *)
(** ** Options page: [parseRepos] *)

Module JsText.

Definition LF : ascii := "010"%char.
Definition CR : ascii := "013"%char.
Definition newline : string := String LF "".

(** [c] occurs in [s]. *)
Fixpoint hasChar (c : ascii) (s : string) : bool :=
  match s with
  | "" => false
  | String a s' => bool_decide (a = c) || hasChar c s'
  end.

(** Every character of [s] is a 7-bit one. *)
Fixpoint sevenBit (s : string) : bool :=
  match s with
  | "" => true
  | String a s' => (N_of_ascii a <? 128)%N && sevenBit s'
  end.

Definition consHead (c : ascii) (parts : list string) : list string :=
  match parts with
  | h :: t => String c h :: t
  | [] => [String c ""]
  end.

(** [s.split(sep)] for a one-character separator. *)
Fixpoint split (sep : ascii) (s : string) : list string :=
  match s with
  | "" => [""]
  | String c s' =>
      if bool_decide (c = sep) then "" :: split sep s'
      else consHead c (split sep s')
  end.

(** [s.split(/\r?\n/)]. *)
Fixpoint splitLines (s : string) : list string :=
  match s with
  | "" => [""]
  | String c s' =>
      if bool_decide (c = LF) then "" :: splitLines s'
      else
        match s' with
        | String c' s'' =>
            if bool_decide (c = CR) && bool_decide (c' = LF) then "" :: splitLines s''
            else consHead c (splitLines s')
        | "" => consHead c (splitLines s')
        end
  end.

End JsText.

(** One iteration of the loop of [parseRepos]. *)
Definition parseLine (line : string) : option WatchTargetRepo.t :=
  match JsText.split "/" line with
  | owner :: name :: _ =>
      if bool_decide (owner = "") || bool_decide (name = "") then None
      else Some (WatchTargetRepo.mk owner name)
  | _ => None
  end.

Definition parseRepos (text : string) : list WatchTargetRepo.t :=
  omap parseLine
    (List.filter (λ l, negb (bool_decide (l = ""))) (Js.trim <$> JsText.splitLines text)).

(** The text the form shows for the stored repositories. *)
Definition repoLine (r : WatchTargetRepo.t) : string :=
  WatchTargetRepo.owner r +:+ "/" +:+ WatchTargetRepo.name r.

Definition reposText (repos : list WatchTargetRepo.t) : string :=
  Js.join JsText.newline (repoLine <$> repos).

(* ================================================================== *)
(** ** Alarms and events *)

Definition ALARM_NAME : string := "github-notify-watch".

(** The period [setupAlarms] registers. *)
Definition alarmPeriod (items : Sync.t) : Z :=
  match settingsOfItems items with
  | Some settings => Settings.intervalMinutes settings
  | None => DEFAULT_INTERVAL_MINUTES
  end.

(** [setupAlarms], on the registered alarms (name to period in minutes):
    [chrome.alarms.clear] and, in its callback, [chrome.alarms.create]. *)
Definition setupAlarms (items : Sync.t) (alarms : gmap string Z) : gmap string Z :=
  <[ALARM_NAME := alarmPeriod items]> (delete ALARM_NAME alarms).

(** The [onAlarm] listener; the rejection of a cycle is logged and dropped. *)
Definition onAlarm (name : string) (remote : Remote.t) (w : World.t) : World.t :=
  if bool_decide (name = ALARM_NAME) then (runWatchCycle remote w).2 else w.

(** The wall clock reads [time]. *)
Definition setClock (time : Z) (w : World.t) : World.t :=
  World.mk (World.runtimeState w) (World.sync w) (World.local w) (World.badgeText w)
    (World.badgeBackgroundColor w) (World.requests w) time.

(** The service worker is stopped and started again: the module-level
    [runtimeState] is initialised anew; storage and the badge are kept by
    the browser. *)
Definition restartWorker (w : World.t) : World.t :=
  World.setRuntimeState Runtime.initial w.

(** What happens to the extension: an alarm fires, with GitHub in some
    state; a notification is opened from the popup; time passes; the wall
    clock is set, forwards or backwards; the service worker is restarted.
    Each is handled to its end before the next one: the cycle of an alarm
    does not overlap with another cycle or with an acknowledgement. *)
Inductive Event :=
  | AlarmFired (name : string) (remote : Remote.t)
  | NotificationOpened (id : string)
  | TimePassed (elapsed : N)
  | ClockSet (time : Z)
  | WorkerRestarted.

Definition step (w : World.t) (e : Event) : World.t :=
  match e with
  | AlarmFired name remote => onAlarm name remote w
  | NotificationOpened id => markAsReadAndUpdate id w
  | TimePassed elapsed => setClock (World.clock w + Z.of_N elapsed) w
  | ClockSet time => setClock time w
  | WorkerRestarted => restartWorker w
  end.

(** An event of an undisturbed run: the clock is not set and the service
    worker is not restarted. *)
Definition steady (e : Event) : bool :=
  match e with
  | ClockSet _ | WorkerRestarted => false
  | AlarmFired _ _ | NotificationOpened _ | TimePassed _ => true
  end.

Definition run (events : list Event) (w : World.t) : World.t := foldl step w events.

(* ================================================================== *)
(** ** Vocabulary of the statements, continued *)

(** The login [ensureViewerLogin] finds in the cache: a non-empty one. *)
Definition cachedLogin (w : World.t) : option string :=
  match Runtime.viewerLogin (World.runtimeState w) with
  | Some login => if bool_decide (login = "") then None else Some login
  | None => None
  end.

(** The place of a query in a cycle. *)
Definition queryRank (q : Query) : nat :=
  match q with
  | GetViewer => 0
  | WatchIssuesAndPRs _ _ _ => 1
  | WatchReviewThreads _ _ _ => 2
  end.

(** The login a query is made for; none for the viewer query itself. *)
Definition queryLogin (q : Query) : option string :=
  match q with
  | GetViewer => None
  | WatchIssuesAndPRs _ _ login => Some login
  | WatchReviewThreads _ _ login => Some login
  end.

(** The [nodeId] that [toStored] builds an id from; none without a
    repository. *)
Definition nodeIdOf (node : NodeCore.t) : option string :=
  match NodeCore.repository node with
  | None => None
  | Some repository =>
      let owner := default "" (Repository.ownerLogin repository) in
      let repo := default "" (Repository.name repository) in
      let number := default 0 (NodeCore.number node) in
      Some (default (owner +:+ "/" +:+ repo +:+ "#" +:+ Js.ofNumber number)
                    (NodeCore.id node))
  end.

(** The enable flag of a kind, as stored. *)
Definition kindEnabled (items : Sync.t) (k : NotificationKind) : bool :=
  match k with
  | KNew => Sync.enableNewItems items
  | KMention => Sync.enableMentions items
  | KThread => Sync.enableMentionThreads items
  | KAssignee => Sync.enableAssigneeComments items
  end.

(** The badge shows the stored counter. *)
Definition badgeShown (w : World.t) : Prop :=
  World.badgeText w = badgeTextOf (World.badge w).

(** What one cycle collected: nothing, or the candidates of a first pass
    and, with the thread category on, of a thread pass. *)
Definition collectedBy (w : World.t) (collected : list StoredNotification.t) : Prop :=
  collected = []
  ∨ ∃ settings login items threads,
      settingsOfItems (World.sync w) = Some settings
      ∧ collected
        = collect (Date.toISOString (World.clock w))
            (classifyItems settings (default 0 (World.checkpoint w)) login items) threads
      ∧ (threads = []
         ∨ Settings.enableMentionThreads settings = true
           ∧ ∃ prs, threads = classifyThreads (default 0 (World.checkpoint w)) login prs).

(** [body] contains the mention token of [login]. *)
Definition mentions (login body : string) : Prop :=
  ∃ a b, body = a +:+ "@" +:+ login +:+ b.

(** [a] was detected no earlier than [b]. *)
Definition newerFirst (time : string → Z) (a b : StoredNotification.t) : Prop :=
  time (StoredNotification.detectedAt b) ≤ time (StoredNotification.detectedAt a).

Definition detectedAtTime (time : string → Z) (t : Z) (n : StoredNotification.t) : bool :=
  bool_decide (time (StoredNotification.detectedAt n) = t).

(** A repository that the form can show and read back. Its owner and
    name are made of 7-bit characters, as the names of GitHub are: of the
    white space that [trim] removes, [Js.isWhiteSpace] knows the 7-bit
    characters only. *)
Definition cleanRepo (r : WatchTargetRepo.t) : Prop :=
  let owner := WatchTargetRepo.owner r in
  let name := WatchTargetRepo.name r in
  owner ≠ "" ∧ name ≠ ""
  ∧ JsText.hasChar "/" owner = false ∧ JsText.hasChar "/" name = false
  ∧ JsText.hasChar JsText.LF owner = false ∧ JsText.hasChar JsText.LF name = false
  ∧ Js.trimStart owner = owner ∧ Js.trimEnd name = name
  ∧ JsText.sevenBit owner = true ∧ JsText.sevenBit name = true.

(** The counter is not negative and the badge shows it. *)
Definition sound (w : World.t) : Prop :=
  0 ≤ World.badge w ∧ badgeShown w.

(* ================================================================== *)
(** ** Further scenarios *)

Module Cases.

(** The viewer has been resolved and the search was rejected: the login is
    in the cache, nothing else has changed since [Scenario.world]. *)
Definition loggedIn : World.t := (runWatchCycle Scenario.noSearch Scenario.world).2.

(** The settings that [loadSettings] makes of [Scenario.sync]. *)
Definition settings : Settings.t :=
  Settings.mk "ghp_token" [WatchTargetRepo.mk "owner1" "repo1"] 5 true true true true.

(** The issue of [Scenario.issueCore] after its title was edited. *)
Definition retitled : NodeCore.t :=
  NodeCore.mk (Some "Issue") (Some "I_1") (Some 3) (Some "Crash on start-up")
    (Some "https://github.com/owner1/repo1/issues/3") (Some Scenario.repository).


(** Two target repositories as the options page stores them. *)
Definition repos : list WatchTargetRepo.t :=
  [WatchTargetRepo.mk "owner1" "repo1"; WatchTargetRepo.mk "octo-org" "octo.repo"].

(** Five minutes apart: the two threads of the pull request are found and
    the pull request is opened; an alarm of another name fires; the search
    is rejected once; the issue is found. *)
Definition events : list Event :=
  [ AlarmFired ALARM_NAME Scenario.twoThreads;
    NotificationOpened "thread:PR_1";
    TimePassed 300000;
    AlarmFired "some-other-alarm" Scenario.oneMention;
    AlarmFired ALARM_NAME Scenario.noSearch;
    TimePassed 300000;
    AlarmFired ALARM_NAME Scenario.oneMention ].

(** The issue is found; the service worker is restarted and the clock is
    set back to January 1st; the issue is found again. *)
Definition disturbed : list Event :=
  [ AlarmFired ALARM_NAME Scenario.oneMention;
    WorkerRestarted;
    ClockSet Scenario.jan1;
    AlarmFired ALARM_NAME Scenario.oneMention ].

(** The checkpoint is January 2nd and the clock, set back since it was
    saved, reads January 1st. *)
Definition clockSetBack : World.t :=
  World.mk (Runtime.mk (Some "me") (Some Scenario.jan2)) Scenario.sync
    (Local.mk (Some []) (Some []) 0 (Some Scenario.jan2)) "" None [] Scenario.jan1.

(** The server of [Scenario.twoThreads] answering what the queries ask
    for: the search nodes come without a type name. *)
Definition untyped : Remote.t :=
  Remote.mk (λ _, Some "me")
    (λ _, Some [Some (Item.mk
                        (NodeCore.mk None (Some "PR_1") (Some 7) (Some "Fix the parser")
                           (Some "https://github.com/owner1/repo1/pull/7")
                           (Some Scenario.repository))
                        (Scenario.jan1 - 86400000) (Scenario.jan1 + 3600000) []
                        (Some "Fixes the parser.") [])])
    (λ _, Some [Some Scenario.pullRequest]) (λ _, 250%N).



End Cases.

(* ================================================================== *)
(** * Facts *)

(** ** Dates *)

Example toISOString_epoch : Date.toISOString 0 = "1970-01-01T00:00:00.000Z".
Proof. vm_compute. reflexivity. Qed.

Example toISOString_2024 : Date.toISOString 1704153600123 = "2024-01-02T00:00:00.123Z".
Proof. vm_compute. reflexivity. Qed.

Example toISOString_leap : Date.toISOString 951868799999 = "2000-02-29T23:59:59.999Z".
Proof. vm_compute. reflexivity. Qed.

Example toISOString_before_epoch : Date.toISOString (-1) = "1969-12-31T23:59:59.999Z".
Proof. vm_compute. reflexivity. Qed.

(** ** Strings *)

Section StringFacts.
Implicit Types s t u : string.

Lemma app_cons a s t : String a s +:+ t = String a (s +:+ t).
Proof. reflexivity. Qed.

Lemma app_empty_l s : "" +:+ s = s.
Proof. reflexivity. Qed.

Lemma app_empty_r s : s +:+ "" = s.
Proof. induction s as [|a s IH]; [done|]. by rewrite app_cons, IH. Qed.

Lemma app_assoc3 s t u : (s +:+ t) +:+ u = s +:+ t +:+ u.
Proof. induction s as [|a s IH]; [done|]. by rewrite !app_cons, IH. Qed.

Lemma startsWith_spec s t : Js.startsWith s t = true ↔ ∃ r, s = t +:+ r.
Proof.
  revert s. induction t as [|b t IH]; intros s.
  - split; [intros _; by exists s | by destruct s].
  - destruct s as [|a s]; simpl.
    + split; [done | intros [r Hr]; discriminate Hr].
    + rewrite andb_true_iff, bool_decide_eq_true, IH. split.
      * intros [-> [r ->]]. by exists r.
      * intros [r Hr]. rewrite app_cons in Hr. injection Hr as -> ->. eauto.
Qed.

(** [includes] is the substring relation. *)
Lemma includes_spec s t : Js.includes s t = true ↔ ∃ a b, s = a +:+ t +:+ b.
Proof.
  induction s as [|c s IH].
  - change (Js.includes "" t) with (Js.startsWith "" t || false).
    rewrite orb_false_r, startsWith_spec. split.
    + intros [r Hr]. by exists "", r.
    + intros (a & b & Hab). destruct a; [|discriminate Hab]. by exists b.
  - change (Js.includes (String c s) t)
      with (Js.startsWith (String c s) t || Js.includes s t).
    rewrite orb_true_iff, startsWith_spec, IH. split.
    + intros [[r Hr]|(a & b & ->)]; [by exists "", r|].
      by exists (String c a), b.
    + intros ([|c' a] & b & Hab).
      * left. by exists b.
      * right. rewrite app_cons in Hab. injection Hab as -> ->. eauto.
Qed.

Lemma includes_suffix s t : Js.includes (s +:+ t) t = true.
Proof. apply includes_spec. exists s, "". by rewrite app_empty_r. Qed.

Lemma trimEnd_snoc s c :
  Js.isWhiteSpace c = false → Js.trimEnd (s +:+ String c "") = s +:+ String c "".
Proof.
  intros Hc. induction s as [|a s IH].
  - simpl. by rewrite Hc.
  - rewrite app_cons. simpl. rewrite IH. by destruct s.
Qed.

Lemma trimStart_nonspace c s :
  Js.isWhiteSpace c = false → Js.trimStart (String c s) = String c s.
Proof. intros Hc. simpl. by rewrite Hc. Qed.

End StringFacts.

(** Right-nested normal form of a concatenation. *)
Ltac flatten_app :=
  repeat first [rewrite app_assoc3 | rewrite app_cons | rewrite app_empty_l].

(** ** Query Builder *)

Example buildRepoQuery_two :
  buildRepoQuery [WatchTargetRepo.mk "o1" "n1"; WatchTargetRepo.mk "o2" "n2"]
                 "2024-01-01T00:00:00.000Z" "me"
  = "(repo:o1/n1 OR repo:o2/n2) is:open (created:>2024-01-01T00:00:00.000Z OR mentions:me OR assignee:me)".
Proof. vm_compute. reflexivity. Qed.

Example buildRepoQuery_none :
  buildRepoQuery [] "2024-01-01T00:00:00.000Z" "me"
  = "is:open (created:>2024-01-01T00:00:00.000Z OR mentions:me OR assignee:me)".
Proof. vm_compute. reflexivity. Qed.

Lemma query_tail_eq C login :
  " is:open (" +:+ conditionPart C login +:+ ")" = " " +:+ openAndConditions C login.
Proof.
  unfold conditionPart, openAndConditions, Js.join. cbn [String.concat].
  flatten_app. reflexivity.
Qed.

Lemma trim_closed s : Js.trimEnd (s +:+ ")") = s +:+ ")".
Proof. by apply trimEnd_snoc. Qed.

Lemma openAndConditions_closed C login :
  ∃ s, openAndConditions C login = String "i" s +:+ ")".
Proof.
  exists ("s:open (created:>" +:+ C +:+ " OR mentions:" +:+ login +:+ " OR assignee:" +:+ login).
  unfold openAndConditions. flatten_app. reflexivity.
Qed.

Lemma buildRepoQuery_nil C login :
  buildRepoQuery [] C login = openAndConditions C login.
Proof.
  unfold buildRepoQuery. cbn [Js.isEmpty]. rewrite query_tail_eq.
  destruct (openAndConditions_closed C login) as [s ->].
  flatten_app. unfold Js.trim. cbn [Js.trimStart Js.isWhiteSpace Ascii.is_space].
  rewrite <- app_cons. apply trim_closed.
Qed.

Lemma buildRepoQuery_cons r rs C login :
  buildRepoQuery (r :: rs) C login
  = "(" +:+ Js.join " OR " (repoTerm <$> r :: rs) +:+ ") " +:+ openAndConditions C login.
Proof.
  unfold buildRepoQuery. cbn [Js.isEmpty]. rewrite query_tail_eq.
  set (j := Js.join " OR " (repoTerm <$> r :: rs)).
  destruct (openAndConditions_closed C login) as [s ->].
  flatten_app. unfold Js.trim. cbn [Js.trimStart Js.isWhiteSpace Ascii.is_space].
  rewrite <- (app_cons "(" j).
  replace (String "(" j +:+ String ")" (String " " (String "i" (s +:+ ")"))))
    with ((String "(" j +:+ ") " +:+ String "i" s) +:+ ")")
    by (flatten_app; reflexivity).
  rewrite trim_closed. flatten_app. reflexivity.
Qed.

(** C7. For a non-empty repo list [buildRepoQuery] returns the
    parenthesised [repo:owner/name] terms joined by [" OR "], then
    [" is:open "] and the parenthesised disjunction of [created:>C],
    [mentions:login] and [assignee:login]; for the empty list it returns
    that text without the repository clause and without leading white
    space; in both cases the result contains the open-items restriction
    with the three OR'd predicates. *)
Theorem C7_buildRepoQuery_shape (r : WatchTargetRepo.t) (rs repos : list WatchTargetRepo.t)
    (C login : string) :
  buildRepoQuery (r :: rs) C login
  = "(" +:+ Js.join " OR "
              ((λ x, "repo:" +:+ WatchTargetRepo.owner x +:+ "/" +:+ WatchTargetRepo.name x)
                 <$> r :: rs)
    +:+ ") is:open (created:>" +:+ C +:+ " OR mentions:" +:+ login
    +:+ " OR assignee:" +:+ login +:+ ")"
  ∧ buildRepoQuery [] C login
    = "is:open (created:>" +:+ C +:+ " OR mentions:" +:+ login
      +:+ " OR assignee:" +:+ login +:+ ")"
  ∧ Js.trimStart (buildRepoQuery [] C login) = buildRepoQuery [] C login
  ∧ Js.includes (buildRepoQuery repos C login)
      ("is:open (created:>" +:+ C +:+ " OR mentions:" +:+ login
       +:+ " OR assignee:" +:+ login +:+ ")") = true.
Proof.
  split; [|split; [|split]].
  - rewrite buildRepoQuery_cons. unfold openAndConditions, repoTerm.
    flatten_app. reflexivity.
  - apply buildRepoQuery_nil.
  - rewrite buildRepoQuery_nil.
    destruct (openAndConditions_closed C login) as [s ->].
    rewrite app_cons. by apply trimStart_nonspace.
  - change (Js.includes (buildRepoQuery repos C login) (openAndConditions C login) = true).
    destruct repos as [|r' rs'].
    + rewrite buildRepoQuery_nil. apply (includes_suffix "").
    + rewrite buildRepoQuery_cons. apply includes_spec.
      exists ("(" +:+ Js.join " OR " (repoTerm <$> r' :: rs') +:+ ") "), "".
      rewrite app_empty_r. flatten_app. reflexivity.
Qed.

(** ** Classifier: first pass *)

Section ClassifierFacts.
Variable settings : Settings.t.
Variable C : Z.
Variable login : string.

Lemma isNew_iff (n : Item.t) : isNew C n = true ↔ C < Item.createdAt n.
Proof. unfold isNew. apply Z.ltb_lt. Qed.

(** The loop appends to each array the nodes that pass its test, in order. *)
Lemma classifyItems_from (b : Buckets.t) (nodes : list Item.t) :
  foldl (classifyItem settings C login) b nodes
  = Buckets.mk
      (Buckets.newItems b ++ List.filter (wantsNew settings C) nodes)
      (Buckets.mentionItems b ++ List.filter (wantsMention settings login) nodes)
      (Buckets.assigneeCommentItems b ++ List.filter (wantsAssignee settings C login) nodes)
      (Buckets.updatedPrIds b
         ++ ((λ n, NodeCore.id (Item.core n))
               <$> List.filter (needsThreadCheck C) nodes)).
Proof.
  revert b. induction nodes as [|n nodes IH]; intros b.
  - simpl. rewrite !app_nil_r. by destruct b.
  - simpl. rewrite IH. unfold classifyItem. simpl.
    fold (wantsNew settings C n) (wantsMention settings login n)
         (wantsAssignee settings C login n) (needsThreadCheck C n).
    destruct (wantsNew settings C n), (wantsMention settings login n),
             (wantsAssignee settings C login n), (needsThreadCheck C n);
      simpl; rewrite <- ?app_assoc; reflexivity.
Qed.

Lemma classifyItems_eq (nodes : list Item.t) :
  classifyItems settings C login nodes
  = Buckets.mk (List.filter (wantsNew settings C) nodes)
      (List.filter (wantsMention settings login) nodes)
      (List.filter (wantsAssignee settings C login) nodes)
      ((λ n, NodeCore.id (Item.core n)) <$> List.filter (needsThreadCheck C) nodes).
Proof. unfold classifyItems. by rewrite classifyItems_from. Qed.

End ClassifierFacts.

(** C6. The is-new signal of the classifier holds exactly when the item's
    [createdAt] is strictly greater than the checkpoint (an item created
    at the checkpoint is not new), and an item becomes a new-kind candidate
    exactly when it is new and the new-items flag is set. *)
Theorem C6_is_new_strict (settings : Settings.t) (C : Z) (login : string)
    (I : Item.t) (b : Buckets.t) (nodes : list Item.t) :
  (isNew C I = true ↔ C < Item.createdAt I)
  ∧ (Item.createdAt I = C → isNew C I = false)
  ∧ Buckets.newItems (classifyItem settings C login b I)
    = (if Settings.enableNewItems settings && bool_decide (C < Item.createdAt I)
       then Buckets.newItems b ++ [I] else Buckets.newItems b)
  ∧ (I ∈ Buckets.newItems (classifyItems settings C login nodes)
     ↔ I ∈ nodes ∧ Settings.enableNewItems settings = true ∧ C < Item.createdAt I).
Proof.
  split; [apply isNew_iff|]. split; [|split].
  - intros <-. unfold isNew. apply Z.ltb_irrefl.
  - unfold classifyItem, isNew. simpl.
    destruct (Z.ltb_spec C (Item.createdAt I)).
    + by rewrite bool_decide_eq_true_2.
    + by rewrite bool_decide_eq_false_2 by lia.
  - rewrite classifyItems_eq. simpl.
    rewrite !list_elem_of_In, filter_In. unfold wantsNew.
    rewrite andb_true_iff, isNew_iff. tauto.
Qed.

(** ** Classifier: review threads *)

Section ThreadFacts.
Variable C : Z.
Variable login : string.



End ThreadFacts.



(** ** Notification Store: the merge *)

Section MergeFacts.
Implicit Types existing collected l : list StoredNotification.t.

Lemma mergeStep_foldl (existingIds : gset string) collected l (k : Z) :
  let appended :=
    List.filter (λ n, negb (bool_decide (StoredNotification.id n ∈ existingIds))) collected in
  foldl (mergeStep existingIds) (l, k) collected
  = (l ++ appended, k + Z.of_nat (length appended)).
Proof.
  revert l k. induction collected as [|n collected IH]; intros l k; simpl.
  - by rewrite app_nil_r, Z.add_0_r.
  - unfold mergeStep at 2. destruct (bool_decide _); simpl.
    + apply IH.
    + rewrite IH. rewrite <- app_assoc. simpl. f_equal. lia.
Qed.

Lemma mergeNotifications_eq existing collected :
  mergeNotifications existing collected
  = (existing ++ List.filter (fresh existing) collected,
     Z.of_nat (length (List.filter (fresh existing) collected))).
Proof.
  unfold mergeNotifications. rewrite mergeStep_foldl. simpl.
  assert (List.filter
            (λ n, negb (bool_decide (StoredNotification.id n
                                     ∈ (list_to_set (StoredNotification.id <$> existing)
                                         : gset string)))) collected
          = List.filter (fresh existing) collected) as ->; [|done].
  apply List.filter_ext. intros n. unfold fresh, ids. f_equal.
  apply bool_decide_ext, elem_of_list_to_set.
Qed.

Lemma countId_app i l1 l2 : countId i (l1 ++ l2) = (countId i l1 + countId i l2)%nat.
Proof. unfold countId. by rewrite List.filter_app, length_app. Qed.

Lemma countId_filter_le i (f : StoredNotification.t → bool) l :
  (countId i (List.filter f l) ≤ countId i l)%nat.
Proof.
  unfold countId. induction l as [|n l IH]; simpl; [done|].
  destruct (f n), (bool_decide (StoredNotification.id n = i)) eqn:E;
    simpl; rewrite ?E; simpl; lia.
Qed.

Lemma countId_pos i l : (0 < countId i l)%nat ↔ i ∈ ids l.
Proof.
  unfold countId, ids. induction l as [|n l IH]; simpl.
  - split; [lia | by intros ?%elem_of_nil].
  - rewrite elem_of_cons. case_bool_decide; simpl.
    + split; [by left | lia].
    + rewrite IH. split; [by right | by intros [?|?]].
Qed.

Lemma countId_zero i l : countId i l = 0%nat ↔ i ∉ ids l.
Proof. rewrite <- countId_pos. lia. Qed.

(** Nothing is appended under an id that is already stored. *)
Lemma countId_fresh_stored i existing collected :
  i ∈ ids existing → countId i (List.filter (fresh existing) collected) = 0%nat.
Proof.
  intros Hi. apply countId_zero. unfold ids.
  intros (n & -> & Hn)%list_elem_of_fmap.
  apply list_elem_of_In, filter_In in Hn as [_ Hfresh].
  unfold fresh in Hfresh. by rewrite bool_decide_eq_true_2 in Hfresh.
Qed.

Lemma ids_app l1 l2 : ids (l1 ++ l2) = ids l1 ++ ids l2.
Proof. apply fmap_app. Qed.

(** After a merge every candidate's id is stored. *)
Lemma merged_has_candidate existing collected n :
  n ∈ collected →
  StoredNotification.id n ∈ ids (existing ++ List.filter (fresh existing) collected).
Proof.
  intros Hn. rewrite ids_app, elem_of_app.
  destruct (fresh existing n) eqn:Hf.
  - right. apply list_elem_of_fmap. exists n. split; [done|].
    apply list_elem_of_In, filter_In. by rewrite <- list_elem_of_In.
  - left. unfold fresh in Hf. apply negb_false_iff in Hf.
    by apply bool_decide_eq_true in Hf.
Qed.


(** What it does not keep: two candidates with one id that is not stored yet
    are both appended, and both counted. *)
Lemma mergeNotifications_twice existing (n n' : StoredNotification.t) :
  StoredNotification.id n ∉ ids existing →
  StoredNotification.id n' = StoredNotification.id n →
  mergeNotifications existing [n; n'] = (existing ++ [n; n'], 2).
Proof.
  intros Hn Heq. rewrite mergeNotifications_eq. simpl. unfold fresh.
  rewrite Heq, bool_decide_eq_false_2 by done. done.
Qed.

End MergeFacts.

(** The merge as the cycle runs it, on the world. *)
Lemma mergeCollected_run (collected : list StoredNotification.t) (w : World.t) :
  let appended := List.filter (fresh (World.stored w)) collected in
  let w' := (mergeCollected collected w).2 in
  (mergeCollected collected w).1 = Ok tt
  ∧ World.stored w' = World.stored w ++ appended
  ∧ World.badge w' = World.badge w + Z.of_nat (length appended)
  ∧ World.runtimeState w' = World.runtimeState w
  ∧ World.persistedCheckpoint w' = World.persistedCheckpoint w
  ∧ World.readIds w' = World.readIds w
  ∧ World.requests w' = World.requests w
  ∧ World.clock w' = World.clock w.
Proof.
  unfold mergeCollected. destruct collected as [|n collected]; simpl.
  - rewrite app_nil_r, Z.add_0_r. done.
  - unfold storeMerge, bind, get, modify, setBadge, mergedItems. simpl.
    rewrite mergeNotifications_eq. simpl. done.
Qed.

Lemma countId_all (i : string) (l : list StoredNotification.t) :
  (∀ n, n ∈ l → StoredNotification.id n = i) → countId i l = length l.
Proof.
  unfold countId. induction l as [|n l IH]; intros Hall; simpl; [done|].
  rewrite bool_decide_eq_true_2 by (apply Hall; left).
  simpl. f_equal. apply IH. intros n' Hn'. apply Hall. by right.
Qed.

(** C4. When a candidate with id [i] has been merged and a second merge
    runs on a candidate list that again contains the id [i], the second
    merge appends nothing under [i]. The badge counter grows, over the two
    merges, by exactly the number of appended entries. When the first merge
    held the id once (one candidate), the stored list gains at most one entry
    with id [i] and at most one of the appended entries has id [i]; and when
    the two merges carry nothing but that candidate, the list length and the
    badge counter grow by at most 1. *)
Theorem C4_merge_idempotent (w : World.t)
    (first second : list StoredNotification.t) (i : string) :
  i ∈ ids first →
  i ∈ ids second →
  let w1 := (mergeCollected first w).2 in
  let w2 := (mergeCollected second w1).2 in
  countId i (List.filter (fresh (World.stored w1)) second) = 0%nat
  ∧ countId i (World.stored w2) = countId i (World.stored w1)
  ∧ (∃ appended,
       World.stored w2 = World.stored w ++ appended
       ∧ World.badge w2 = World.badge w + Z.of_nat (length appended)
       ∧ (countId i first = 1%nat → (countId i appended ≤ 1)%nat))
  ∧ (countId i first = 1%nat →
       (countId i (World.stored w2) ≤ countId i (World.stored w) + 1)%nat)
  ∧ (countId i first = 1%nat →
     (∀ n, n ∈ first ++ second → StoredNotification.id n = i) →
       (length (World.stored w2) ≤ length (World.stored w) + 1)%nat
       ∧ World.badge w2 ≤ World.badge w + 1).
Proof.
  intros Hfirst Hsecond w1 w2.
  destruct (mergeCollected_run first w) as (_ & Hs1 & Hb1 & _).
  destruct (mergeCollected_run second w1) as (_ & Hs2 & Hb2 & _).
  fold w1 in Hs1, Hb1. fold w2 in Hs2, Hb2.
  set (A1 := List.filter (fresh (World.stored w)) first) in *.
  set (A2 := List.filter (fresh (World.stored w1)) second) in *.
  assert (i ∈ ids (World.stored w1)) as Hstored.
  { apply list_elem_of_fmap in Hfirst as (n & -> & Hn).
    rewrite Hs1. by apply merged_has_candidate. }
  assert (countId i A2 = 0%nat) as HA2 by by apply countId_fresh_stored.
  assert (countId i A1 ≤ countId i first)%nat as HA1 by apply countId_filter_le.
  split; [done|]. split; [by rewrite Hs2, countId_app, HA2, Nat.add_0_r|].
  split; [|split].
  - exists (A1 ++ A2). rewrite Hs2, Hs1, Hb2, Hb1, <- app_assoc, length_app, countId_app.
    split; [done|]. split; lia.
  - intros Hone. rewrite Hs2, Hs1, !countId_app. lia.
  - intros Hone Hall.
    assert (A2 = []) as HA2nil.
    { apply length_zero_iff_nil. rewrite <- (countId_all i); [done|].
      intros n [Hn _]%list_elem_of_In%filter_In. apply Hall, elem_of_app. right.
      by apply list_elem_of_In. }
    assert (length A1 ≤ 1)%nat as HlenA1.
    { rewrite <- Hone. rewrite (countId_all i first).
      - apply List.filter_length_le.
      - intros n Hn. apply Hall, elem_of_app. by left. }
    rewrite Hs2, Hs1, Hb2, Hb1, HA2nil, app_nil_r, length_app. simpl. lia.
Qed.

(** ** Popup: acknowledgement *)

Section AcknowledgeFacts.

Lemma foldl_setAdd_elem (acc l : list string) (x : string) :
  x ∈ foldl Js.setAdd acc l ↔ x ∈ acc ∨ x ∈ l.
Proof.
  revert acc. induction l as [|y l IH]; intros acc; simpl.
  - rewrite elem_of_nil. tauto.
  - rewrite IH, elem_of_cons. unfold Js.setAdd, Js.setHas.
    case_bool_decide; [|rewrite elem_of_app, list_elem_of_singleton];
      intuition (subst; auto).
Qed.

Lemma newSet_elem (l : list string) (x : string) : x ∈ Js.newSet l ↔ x ∈ l.
Proof. unfold Js.newSet. rewrite foldl_setAdd_elem, elem_of_nil. tauto. Qed.

Lemma markAsReadAndUpdate_badge (id : string) (w : World.t) :
  World.badge (markAsReadAndUpdate id w) = Z.max 0 (World.badge w - 1).
Proof. reflexivity. Qed.

Lemma markAsReadAndUpdate_readIds (id : string) (w : World.t) :
  World.readIds (markAsReadAndUpdate id w)
  = if Js.setHas (Js.newSet (World.readIds w)) id
    then Js.newSet (World.readIds w)
    else Js.setAdd (Js.newSet (World.readIds w)) id.
Proof.
  unfold markAsReadAndUpdate, World.readIds. simpl.
  by destruct (Js.setHas _ id).
Qed.

End AcknowledgeFacts.

(** C2, as the code has it. Acknowledging an id that is already in the
    persisted read-id set adds no member to that set, and stores the badge
    counter [max(0, counter - 1)]: a positive counter is decremented by 1
    once more, and only a counter that is already 0 stays as it is. *)
Theorem C2_reacknowledge_decrements (w : World.t) (id : string) :
  id ∈ World.readIds w →
  let w' := markAsReadAndUpdate id w in
  World.readIds w' = Js.newSet (World.readIds w)
  ∧ World.badge w' = Z.max 0 (World.badge w - 1)
  ∧ (0 < World.badge w → World.badge w' = World.badge w - 1)
  ∧ (0 ≤ World.badge w → (World.badge w' = World.badge w ↔ World.badge w = 0)).
Proof.
  intros Hid w'. subst w'. rewrite markAsReadAndUpdate_readIds, markAsReadAndUpdate_badge.
  split; [|split; [done|split; lia]].
  unfold Js.setHas. rewrite bool_decide_eq_true_2; [done|]. by apply newSet_elem.
Qed.

(** C9. Whatever the starting badge counter and whatever ids are
    acknowledged, in any order and with any repetition, the badge counter
    stored by each acknowledgement is at least 0. *)
Theorem C9_badge_floor (w : World.t) (ids : list string) :
  Forall (λ w', 0 ≤ World.badge w') (acknowledgeAll ids w).
Proof.
  revert w. induction ids as [|id ids IH]; intros w; simpl; constructor.
  - rewrite markAsReadAndUpdate_badge. lia.
  - apply IH.
Qed.

(** ** Watch-Cycle Orchestrator *)

Section CycleFacts.
Variable remote : Remote.t.

Lemma frame_refl w : frame w w.
Proof.
  repeat split; try done; try lia. exists []. by rewrite app_nil_r.
Qed.

Lemma frame_trans w1 w2 w3 : frame w1 w2 → frame w2 w3 → frame w1 w3.
Proof.
  intros (? & ? & ? & ? & ? & s1 & Hs1) (? & ? & ? & ? & ? & s2 & Hs2).
  repeat split; try congruence; try lia.
  exists (s1 ++ s2). by rewrite Hs2, Hs1, app_assoc.
Qed.

Lemma frame_addRequest r n w : frame w (World.addRequest r n w).
Proof. repeat split; simpl; try done; try lia. by exists [r]. Qed.

Lemma bind_run {A B} (m : M A) (k : A → M B) (w : World.t) :
  bind m k w = match m w with
               | (Ok a, w') => k a w'
               | (Throw e, w') => (Throw e, w')
               end.
Proof. reflexivity. Qed.

Lemma send_run {A} (answer : Request.t → option A) (client : string) (q : Query) w :
  send remote answer client q w
  = (match answer (Request.mk client q) with
     | Some a => Ok a
     | None => Throw (RequestRejected q)
     end,
     World.addRequest (Request.mk client q)
       (Remote.latency remote (Request.mk client q)) w).
Proof. unfold send, bind, modify. by destruct (answer _). Qed.

Lemma allNodes_run {A} (nodes : list (option A)) w :
  allNodes nodes w
  = (match mapM (λ n, n) nodes with Some ns => Ok ns | None => Throw TypeError end, w).
Proof.
  induction nodes as [|[n|] nodes IH]; simpl; [done| |done].
  rewrite bind_run, IH. by destruct (mapM _ nodes).
Qed.

Lemma ensureViewerLogin_frame client w :
  frame w (ensureViewerLogin remote client w).2.
Proof.
  assert (∀ w0, frame w0
            (bind (send remote (Remote.viewer remote) client GetViewer)
               (λ login,
                  modify (λ w, World.setRuntimeState
                     (Runtime.mk (Some login)
                        (Runtime.lastCheckedAt (World.runtimeState w))) w) >>
                  ret login) w0).2) as Hfetch.
  { intros w0. rewrite bind_run, send_run.
    destruct (Remote.viewer remote _); simpl.
    - eapply frame_trans; [apply frame_addRequest|].
      repeat split; simpl; try done; try lia. exists []. by rewrite app_nil_r.
    - apply frame_addRequest. }
  unfold ensureViewerLogin. rewrite bind_run. simpl.
  destruct (Runtime.viewerLogin (World.runtimeState w)) as [login|]; [|apply Hfetch].
  case_bool_decide; [apply Hfetch | apply frame_refl].
Qed.

Lemma mapM_id_Some {A} (l : list (option A)) (k : list A) :
  mapM (λ n, n) l = Some k ↔ l = Some <$> k.
Proof.
  rewrite mapM_Some. split.
  - induction 1 as [|x y l k Hxy _ IH]; simpl; [done|]. by rewrite Hxy, IH.
  - intros ->. induction k; simpl; by constructor.
Qed.

Lemma loadSettings_run w : loadSettings w = (Ok (settingsOfItems (World.sync w)), w).
Proof. reflexivity. Qed.

Lemma cycle_tail_run collected now w :
  (mergeCollected collected >> saveLastCheckedAt now >> ret Completed) w
  = (Ok Completed, (saveLastCheckedAt now (mergeCollected collected w).2).2).
Proof.
  rewrite bind_run. destruct (mergeCollected_run collected w) as (Hok & _).
  destruct (mergeCollected collected w) as [r w']. simpl in Hok. subst r. done.
Qed.

Lemma runWatchCycle_spec w :
  match runWatchCycle remote w with
  | (Ok Skipped, w') => w' = w
  | (Ok Completed, w') => completedFrom remote w w'
  | (Throw e, w') => frame w w'
  end.
Proof.
  unfold runWatchCycle. rewrite bind_run, loadSettings_run.
  destruct (settingsOfItems (World.sync w)) as [settings|] eqn:Hsettings; [|done].
  destruct (bool_decide (Settings.pat settings = "") || Js.isEmpty (Settings.repos settings))
    eqn:Hguard; [done|].
  apply orb_false_iff in Hguard as [_ Hrepos].
  rewrite bind_run. unfold currentTime at 1. rewrite bind_run. unfold get at 1.
  rewrite bind_run.
  pose proof (ensureViewerLogin_frame (createGithubClient (Settings.pat settings)) w)
    as Hf1.
  destruct (ensureViewerLogin remote (createGithubClient (Settings.pat settings)) w)
    as [[login|e] w1]; [|done].
  simpl in Hf1. rewrite bind_run, send_run.
  set (cp := default 0 (Runtime.lastCheckedAt (World.runtimeState w))).
  set (searchRequest := Request.mk _ (WatchIssuesAndPRs _ _ _)).
  pose proof (frame_addRequest searchRequest (Remote.latency remote searchRequest) w1) as Hf2.
  set (w2 := World.addRequest searchRequest _ w1) in *.
  assert (frame w w2) as Hw2 by by eapply frame_trans.
  assert (searchRequest ∈ World.requests w2) as Hsent.
  { subst w2. simpl. apply elem_of_app. right. by left. }
  destruct (Remote.search remote searchRequest) as [res|] eqn:Hsearch; [|done].
  rewrite bind_run, allNodes_run.
  destruct (mapM (λ n, n) res) as [items|] eqn:Hitems; [|done].
  apply mapM_id_Some in Hitems as ->. rewrite bind_run.
  set (buckets := classifyItems settings cp login items).
  destruct (Settings.enableMentionThreads settings
            && negb (Js.isEmpty (Buckets.updatedPrIds buckets))).
  - rewrite bind_run, send_run.
    set (reviewRequest := Request.mk _ (WatchReviewThreads _ _ _)).
    pose proof (frame_addRequest reviewRequest (Remote.latency remote reviewRequest) w2) as Hf3.
    set (w3 := World.addRequest reviewRequest _ w2) in *.
    assert (frame w w3) as Hw3 by by eapply frame_trans.
    destruct (Remote.nodes remote reviewRequest) as [review|]; [|done].
    rewrite bind_run, allNodes_run.
    destruct (mapM (λ n, n) review) as [prs|]; [|done].
    unfold ret at 1. rewrite cycle_tail_run.
    exists settings, login, items, (classifyThreads cp login prs), w3.
    split; [done|]. split; [by destruct (Settings.repos settings)|]. split; [done|].
    split; [|split; [done|split; [eauto|done]]].
    subst w3. simpl. apply elem_of_app. by left.
  - unfold ret at 1. rewrite cycle_tail_run.
    exists settings, login, items, [], w2.
    split; [done|]. split; [by destruct (Settings.repos settings)|]. split; [done|].
    split; [done|]. split; [done|]. split; [by left|done].
Qed.

End CycleFacts.

Lemma saveLastCheckedAt_run (iso : Z) (w : World.t) :
  let w' := (saveLastCheckedAt iso w).2 in
  World.checkpoint w' = Some iso
  ∧ World.persistedCheckpoint w' = Some iso
  ∧ World.stored w' = World.stored w
  ∧ World.badge w' = World.badge w
  ∧ World.readIds w' = World.readIds w
  ∧ World.requests w' = World.requests w
  ∧ World.clock w' = World.clock w.
Proof. done. Qed.

(** The state a completed cycle leaves. *)
Lemma completedFrom_world (remote : Remote.t) (w w' : World.t) :
  completedFrom remote w w' →
  World.checkpoint w' = Some (World.clock w)
  ∧ World.persistedCheckpoint w' = Some (World.clock w)
  ∧ World.clock w ≤ World.clock w'
  ∧ ∃ collected,
      World.stored w' = World.stored w ++ List.filter (fresh (World.stored w)) collected
      ∧ World.badge w'
        = World.badge w + Z.of_nat (length (List.filter (fresh (World.stored w)) collected)).
Proof.
  intros (settings & login & items & threadItems & w1 & _ & _ & Hframe & H).
  cbv zeta in H. destruct H as (_ & _ & _ & ->).
  destruct Hframe as (_ & Hlocal & _ & _ & Hclock & _).
  set (collected := collect _ _ _).
  destruct (mergeCollected_run collected w1) as (_ & Hs & Hb & _ & _ & _ & _ & Hc).
  destruct (saveLastCheckedAt_run (World.clock w) (mergeCollected collected w1).2)
    as (Hcp & Hp & Hs' & Hb' & _ & _ & Hc').
  cbv zeta in *. rewrite Hcp, Hp, Hs', Hb', Hc', Hs, Hb, Hc.
  unfold World.stored, World.badge. rewrite Hlocal.
  split; [done|]. split; [done|]. split; [done|]. by exists collected.
Qed.

(** C3, as the code has it. A cycle that completes leaves as checkpoint, in
    the runtime state and in storage, the time read at its start, before
    any request was sent (the clock may have moved on since). Nothing in the
    cycle compares that time with the checkpoint it started from: the new
    checkpoint is greater than or equal to the old one exactly when the
    clock, at the start of the cycle, was not behind the old one. A cycle
    that throws, at whatever step, leaves the checkpoint as it was, and so
    does a skipped cycle. *)
Theorem C3_checkpoint_evolution (remote : Remote.t) (w : World.t) :
  match runWatchCycle remote w with
  | (Ok Completed, w') =>
      World.checkpoint w' = Some (World.clock w)
      ∧ World.persistedCheckpoint w' = Some (World.clock w)
      ∧ World.clock w ≤ World.clock w'
      ∧ (default 0 (World.checkpoint w) ≤ default 0 (World.checkpoint w')
         ↔ checkpointNotAhead w)
      ∧ checkpointNotAhead w'
  | (Throw e, w') =>
      World.checkpoint w' = World.checkpoint w
      ∧ World.persistedCheckpoint w' = World.persistedCheckpoint w
      ∧ (checkpointNotAhead w → checkpointNotAhead w')
  | (Ok Skipped, w') =>
      World.checkpoint w' = World.checkpoint w
      ∧ World.persistedCheckpoint w' = World.persistedCheckpoint w
  end.
Proof.
  pose proof (runWatchCycle_spec remote w) as Hspec.
  destruct (runWatchCycle remote w) as [[[|]|e] w'].
  - by subst w'.
  - apply completedFrom_world in Hspec as (Hcp & Hp & Hclock & _).
    unfold checkpointNotAhead. rewrite Hcp. simpl. done.
  - destruct Hspec as (_ & Hlocal & Hcp & _ & Hclock & _).
    unfold checkpointNotAhead, World.persistedCheckpoint. rewrite Hcp, Hlocal.
    split; [done|]. split; [done|]. lia.
Qed.

(** C8. With an empty (or absent) credential, or with a repo list that is
    not an array or is empty, [runWatchCycle] returns without throwing and
    leaves the whole world as it was: no request is sent, and the
    checkpoint, the stored notifications and the badge counter are
    untouched. *)
Theorem C8_incomplete_configuration_noop (remote : Remote.t) (w : World.t) :
  Sync.pat (World.sync w) = ""
  ∨ Sync.repos (World.sync w) = None
  ∨ Sync.repos (World.sync w) = Some [] →
  runWatchCycle remote w = (Ok Skipped, w).
Proof.
  intros Hconfig. unfold runWatchCycle. rewrite bind_run, loadSettings_run.
  unfold settingsOfItems.
  destruct (Sync.repos (World.sync w)) as [repos|]; [|done].
  case_bool_decide as Hpat; [done|].
  destruct Hconfig as [?|[?|[= ->]]]; [done..|].
  simpl. by rewrite orb_true_r.
Qed.

(** C10. When the runtime state holds no checkpoint, whatever checkpoint
    storage holds, a cycle that completes has sent its search with the lower
    bound [1970-01-01T00:00:00.000Z], and with the new-items flag on every
    fetched item created after the epoch is classified as new and, once
    converted, has its ["new:"] id in the stored list. *)
Theorem C10_first_run_uses_epoch (remote : Remote.t) (w w' : World.t) :
  World.checkpoint w = None →
  runWatchCycle remote w = (Ok Completed, w') →
  ∃ settings login items,
    settingsOfItems (World.sync w) = Some settings
    ∧ let searchRequest :=
        Request.mk (createGithubClient (Settings.pat settings))
          (WatchIssuesAndPRs
             (buildRepoQuery (Settings.repos settings) "1970-01-01T00:00:00.000Z" login)
             "1970-01-01T00:00:00.000Z" login) in
      searchRequest ∈ World.requests w'
      ∧ Remote.search remote searchRequest = Some (Some <$> items)
      ∧ ∀ I, I ∈ items → Settings.enableNewItems settings = true →
          0 < Item.createdAt I →
          I ∈ Buckets.newItems (classifyItems settings 0 login items)
          ∧ ∀ stored,
              toStored (Date.toISOString (World.clock w)) (Item.core I) KNew = Some stored →
              StoredNotification.id stored ∈ ids (World.stored w').
Proof.
  intros Hnone Hrun. pose proof (runWatchCycle_spec remote w) as Hspec.
  rewrite Hrun in Hspec.
  destruct Hspec as (settings & login & items & threadItems & w1 & Hs & _ & Hframe & H).
  rewrite Hnone in H. cbv zeta in H. simpl (default 0 None) in H.
  rewrite toISOString_epoch in H. destruct H as (Hsent & Hsearch & _ & ->).
  exists settings, login, items. split; [done|]. cbv zeta.
  set (collected := collect _ _ _).
  destruct (mergeCollected_run collected w1) as (_ & Hst & _ & _ & _ & _ & Hrq & _).
  destruct (saveLastCheckedAt_run (World.clock w) (mergeCollected collected w1).2)
    as (_ & _ & Hst' & _ & _ & Hrq' & _).
  cbv zeta in *. split; [by rewrite Hrq', Hrq|]. split; [done|].
  intros I HI Hflag Hcreated.
  assert (I ∈ Buckets.newItems (classifyItems settings 0 login items)) as Hnew.
  { rewrite classifyItems_eq. simpl. apply list_elem_of_In, filter_In.
    split; [by apply list_elem_of_In|]. unfold wantsNew. rewrite Hflag. simpl.
    by apply isNew_iff. }
  split; [done|]. intros stored Hstored.
  rewrite Hst', Hst. apply merged_has_candidate.
  unfold collected, collect. apply elem_of_app. left.
  apply list_elem_of_omap. by exists I.
Qed.

(** Each way a cycle can end does occur. *)
Example cycle_completes :
  let r := runWatchCycle Scenario.oneMention Scenario.world in
  r.1 = Ok Completed
  ∧ World.checkpoint r.2 = Some Scenario.jan2
  ∧ World.clock r.2 = Scenario.jan2 + 500.
Proof. vm_compute. done. Qed.

Example cycle_fails_at_each_step :
  (runWatchCycle Scenario.noViewer Scenario.world).1 = Throw (RequestRejected GetViewer)
  ∧ (∃ q, (runWatchCycle Scenario.noSearch Scenario.world).1 = Throw (RequestRejected q))
  ∧ (runWatchCycle Scenario.nullItem Scenario.world).1 = Throw TypeError
  ∧ (∃ q, (runWatchCycle Scenario.noReview Scenario.world).1 = Throw (RequestRejected q))
  ∧ (runWatchCycle Scenario.nullPullRequest Scenario.world).1 = Throw TypeError.
Proof. vm_compute. eauto 10. Qed.

(** The scenario of the new issue: checkpoint January 1st, one issue
    created January 2nd, new items enabled. *)
Example new_issue_scenario :
  let newIssue :=
    Item.mk Scenario.issueCore Scenario.jan2 Scenario.jan2 [] (Some "It crashes") [] in
  let settings := Settings.mk "ghp_token" [] 5 true true true true in
  collect "2024-01-03T00:00:00.000Z"
    (classifyItems settings Scenario.jan1 "me" [newIssue]) []
  = [ StoredNotification.mk "new:I_1" KNew false "owner1" "repo1" 3 "Crash on start"
        "https://github.com/owner1/repo1/issues/3" "2024-01-03T00:00:00.000Z" ].
Proof. vm_compute. reflexivity. Qed.

(** The scenario of the thread rule: a mention at [t0], a reply at [t1]. *)
Example thread_rule_scenario :
  let t0 := Scenario.jan1 - 7200000 in
  let t1 := Scenario.jan1 + 1800000 in
  let resolved := ReviewThread.mk (Some "T_1") true (ReviewThread.comments Scenario.thread1) in
  is_Some (classifyThread (t0 + 1) "me" Scenario.pullRequest Scenario.thread1)
  ∧ classifyThread (t1 + 1) "me" Scenario.pullRequest Scenario.thread1 = None
  ∧ classifyThread (t0 + 1) "me" Scenario.pullRequest resolved = None.
Proof. vm_compute. eauto. Qed.

(** One cycle, started from an empty store, against a server that reports
    the type name of the search nodes: the pull request has two unresolved
    review threads that both qualify, and the cycle stores two
    notifications with the same id ["thread:PR_1"]. *)
Example two_threads_scenario :
  let r := runWatchCycle Scenario.twoThreads Scenario.world in
  r.1 = Ok Completed
  ∧ World.stored Scenario.world = []
  ∧ ids (World.stored r.2) = ["thread:PR_1"; "thread:PR_1"]
  ∧ StoredNotification.kind <$> World.stored r.2 = [KThread; KThread]
  ∧ ¬ NoDup (ids (World.stored r.2))
  ∧ World.badge r.2 = 2.
Proof.
  assert (ids (World.stored (runWatchCycle Scenario.twoThreads Scenario.world).2)
          = ["thread:PR_1"; "thread:PR_1"]) as Hids by (vm_compute; reflexivity).
  cbv zeta. rewrite Hids. split_and!; try (vm_compute; done).
  intros [Hnotin _]%NoDup_cons. apply Hnotin. left.
Qed.

(** The queries of the cycle do not select the type name. Without it no
    search node counts as a pull request, and no review thread is looked
    up. *)
Lemma updatedPrIds_without_typename settings C login items :
  Forall (λ n, NodeCore.typename (Item.core n) = None) items →
  Buckets.updatedPrIds (classifyItems settings C login items) = [].
Proof.
  intros Hall. rewrite classifyItems_eq. simpl.
  induction Hall as [|n l Hn _ IH]; [done|]. simpl.
  unfold needsThreadCheck at 1. unfold isPR. rewrite Hn. simpl. exact IH.
Qed.

Example untyped_scenario :
  let r := runWatchCycle Cases.untyped Scenario.world in
  r.1 = Ok Completed
  ∧ World.stored r.2 = []
  ∧ World.badge r.2 = 0
  ∧ length (World.requests r.2) = 2%nat.
Proof. vm_compute. done. Qed.

(** ** Uniqueness of ids over a sequence of merges *)












(** C3, as stated, fails: the checkpoint is January 2nd and the clock, set
    back since, reads January 1st; the cycle completes and the checkpoint
    afterwards is the time read at its start, January 1st, which is less
    than the checkpoint before the cycle. *)
Lemma C3_counterexample :
  let r := runWatchCycle Scenario.oneMention Cases.clockSetBack in
  r.1 = Ok Completed
  ∧ World.clock Cases.clockSetBack = Scenario.jan1
  ∧ World.checkpoint Cases.clockSetBack = Some Scenario.jan2
  ∧ World.checkpoint r.2 = Some Scenario.jan1
  ∧ World.persistedCheckpoint r.2 = Some Scenario.jan1
  ∧ Scenario.jan1 < Scenario.jan2.
Proof. vm_compute. done. Qed.

(** C2, as stated, fails: the id ["mention:I_1"] is in the persisted
    read-id set, the badge counter is 1, and acknowledging it again stores 0. *)
Lemma C2_counterexample :
  "mention:I_1" ∈ World.readIds Scenario.foundAgain
  ∧ World.badge Scenario.foundAgain = 1
  ∧ World.badge (markAsReadAndUpdate "mention:I_1" Scenario.foundAgain) = 0
  ∧ World.badge (markAsReadAndUpdate "mention:I_1" Scenario.foundAgain)
    ≠ World.badge Scenario.foundAgain.
Proof. vm_compute. split; [by left|]. done. Qed.

(** The re-acknowledgement theorem at the issue that was opened, found
    again and is opened again. *)
Lemma C2_reacknowledge_decrements_witness :
  "mention:I_1" ∈ World.readIds Scenario.foundAgain
  ∧ (let w' := markAsReadAndUpdate "mention:I_1" Scenario.foundAgain in
     World.readIds w' = Js.newSet (World.readIds Scenario.foundAgain)
     ∧ World.badge w' = Z.max 0 (World.badge Scenario.foundAgain - 1)
     ∧ (0 < World.badge Scenario.foundAgain →
          World.badge w' = World.badge Scenario.foundAgain - 1)
     ∧ (0 ≤ World.badge Scenario.foundAgain →
          (World.badge w' = World.badge Scenario.foundAgain
           ↔ World.badge Scenario.foundAgain = 0))).
Proof.
  assert ("mention:I_1" ∈ World.readIds Scenario.foundAgain) as H
    by (vm_compute; left).
  exact (conj H (C2_reacknowledge_decrements Scenario.foundAgain "mention:I_1" H)).
Defined.

(** The idempotence theorem at one mention merged twice into an empty store. *)
Lemma C4_merge_idempotent_witness :
  let n := StoredNotification.mk "mention:I_1" KMention false "owner1" "repo1" 3
             "Crash on start" "https://github.com/owner1/repo1/issues/3"
             "2024-01-02T00:00:00.000Z" in
  let w1 := (mergeCollected [n] Scenario.world).2 in
  let w2 := (mergeCollected [n] w1).2 in
  "mention:I_1" ∈ ids [n]
  ∧ countId "mention:I_1" [n] = 1%nat
  ∧ countId "mention:I_1" (World.stored w2) = countId "mention:I_1" (World.stored w1)
  ∧ (countId "mention:I_1" (World.stored w2)
     ≤ countId "mention:I_1" (World.stored Scenario.world) + 1)%nat.
Proof.
  intros n w1 w2.
  assert ("mention:I_1" ∈ ids [n]) as H1 by (vm_compute; left).
  assert (countId "mention:I_1" [n] = 1%nat) as H2 by (vm_compute; reflexivity).
  pose proof (C4_merge_idempotent Scenario.world [n] [n] "mention:I_1" H1 H1) as H.
  exact (conj H1 (conj H2 (conj (proj1 (proj2 H))
                                (proj1 (proj2 (proj2 (proj2 H))) H2)))).
Defined.

(** The no-op theorem at a non-empty credential with an empty list of
    target repositories. *)
Lemma C8_incomplete_configuration_noop_witness :
  (Sync.pat (World.sync Scenario.noRepos) = ""
   ∨ Sync.repos (World.sync Scenario.noRepos) = None
   ∨ Sync.repos (World.sync Scenario.noRepos) = Some [])
  ∧ runWatchCycle Scenario.oneMention Scenario.noRepos = (Ok Skipped, Scenario.noRepos).
Proof.
  assert (Sync.pat (World.sync Scenario.noRepos) = ""
          ∨ Sync.repos (World.sync Scenario.noRepos) = None
          ∨ Sync.repos (World.sync Scenario.noRepos) = Some []) as H
    by (right; right; reflexivity).
  exact (conj H (C8_incomplete_configuration_noop Scenario.oneMention Scenario.noRepos H)).
Defined.

(** The first-run theorem at the restarted service worker, whose storage
    still holds the checkpoint of January 1st. *)
Lemma C10_first_run_uses_epoch_witness :
  let w := Scenario.restarted in
  let w' := (runWatchCycle Scenario.oneMention Scenario.restarted).2 in
  World.persistedCheckpoint w = Some Scenario.jan1
  ∧ World.checkpoint w = None
  ∧ runWatchCycle Scenario.oneMention w = (Ok Completed, w')
  ∧ ∃ settings login items,
      settingsOfItems (World.sync w) = Some settings
      ∧ let searchRequest :=
          Request.mk (createGithubClient (Settings.pat settings))
            (WatchIssuesAndPRs
               (buildRepoQuery (Settings.repos settings) "1970-01-01T00:00:00.000Z" login)
               "1970-01-01T00:00:00.000Z" login) in
        searchRequest ∈ World.requests w'
        ∧ Remote.search Scenario.oneMention searchRequest = Some (Some <$> items)
        ∧ ∀ I, I ∈ items → Settings.enableNewItems settings = true →
            0 < Item.createdAt I →
            I ∈ Buckets.newItems (classifyItems settings 0 login items)
            ∧ ∀ stored,
                toStored (Date.toISOString (World.clock w)) (Item.core I) KNew = Some stored →
                StoredNotification.id stored ∈ ids (World.stored w').
Proof.
  intros w w'.
  assert (World.checkpoint w = None) as H1 by reflexivity.
  assert (runWatchCycle Scenario.oneMention w = (Ok Completed, w')) as H2
    by (vm_compute; reflexivity).
  exact (conj eq_refl
           (conj H1 (conj H2 (C10_first_run_uses_epoch Scenario.oneMention w w' H1 H2)))).
Defined.

(** After the restart the month-old issue is stored as new. *)
Example restarted_stores_old_issue_as_new :
  ids (World.stored (runWatchCycle Scenario.oneMention Scenario.restarted).2)
  = ["new:I_1"; "mention:I_1"]
  ∧ ids (World.stored (runWatchCycle Scenario.oneMention Scenario.world).2)
    = ["mention:I_1"].
Proof. vm_compute. done. Qed.

(* ================================================================== *)
(** * Further facts *)

(** ** The cycle, step by step *)

Section CycleRuns.
Variable remote : Remote.t.

Lemma ensureViewerLogin_run client w :
  ensureViewerLogin remote client w
  = match cachedLogin w with
    | Some login => (Ok login, w)
    | None =>
        let r := Request.mk client GetViewer in
        let w1 := World.addRequest r (Remote.latency remote r) w in
        match Remote.viewer remote r with
        | Some login =>
            (Ok login,
             World.setRuntimeState (Runtime.mk (Some login) (World.checkpoint w)) w1)
        | None => (Throw (RequestRejected GetViewer), w1)
        end
    end.
Proof.
  unfold ensureViewerLogin, cachedLogin. rewrite bind_run. simpl.
  assert (∀ w0,
            bind (send remote (Remote.viewer remote) client GetViewer)
               (λ login,
                  modify (λ w, World.setRuntimeState
                     (Runtime.mk (Some login)
                        (Runtime.lastCheckedAt (World.runtimeState w))) w) >>
                  ret login) w0
            = let r := Request.mk client GetViewer in
              let w1 := World.addRequest r (Remote.latency remote r) w0 in
              match Remote.viewer remote r with
              | Some login =>
                  (Ok login,
                   World.setRuntimeState (Runtime.mk (Some login) (World.checkpoint w0)) w1)
              | None => (Throw (RequestRejected GetViewer), w1)
              end) as Hfetch.
  { intros w0. rewrite bind_run, send_run. cbv zeta. destruct (Remote.viewer remote _); reflexivity. }
  destruct (Runtime.viewerLogin (World.runtimeState w)) as [login|]; [|apply Hfetch].
  case_bool_decide; [apply Hfetch | done].
Qed.


(** [runWatchCycle] with its binds run: the outcome and the world at each
    way out. *)
Lemma runWatchCycle_unfold w :
  runWatchCycle remote w
  = match settingsOfItems (World.sync w) with
    | None => (Ok Skipped, w)
    | Some settings =>
      if bool_decide (Settings.pat settings = "") || Js.isEmpty (Settings.repos settings)
      then (Ok Skipped, w)
      else
        let client := createGithubClient (Settings.pat settings) in
        let cp := default 0 (World.checkpoint w) in
        let iso := Date.toISOString cp in
        match ensureViewerLogin remote client w with
        | (Throw e, w1) => (Throw e, w1)
        | (Ok login, w1) =>
          let search :=
            Request.mk client
              (WatchIssuesAndPRs (buildRepoQuery (Settings.repos settings) iso login)
                 iso login) in
          let w2 := World.addRequest search (Remote.latency remote search) w1 in
          match Remote.search remote search with
          | None => (Throw (RequestRejected (Request.query search)), w2)
          | Some found =>
            match mapM (λ n, n) found with
            | None => (Throw TypeError, w2)
            | Some items =>
              let buckets := classifyItems settings cp login items in
              let finish threadItems w3 :=
                (Ok Completed,
                 (saveLastCheckedAt (World.clock w)
                    (mergeCollected
                       (collect (Date.toISOString (World.clock w)) buckets threadItems)
                       w3).2).2) in
              if Settings.enableMentionThreads settings
                 && negb (Js.isEmpty (Buckets.updatedPrIds buckets))
              then
                let review :=
                  Request.mk client
                    (WatchReviewThreads (Buckets.updatedPrIds buckets) iso login) in
                let w3 := World.addRequest review (Remote.latency remote review) w2 in
                match Remote.nodes remote review with
                | None => (Throw (RequestRejected (Request.query review)), w3)
                | Some fetched =>
                  match mapM (λ n, n) fetched with
                  | None => (Throw TypeError, w3)
                  | Some prs => finish (classifyThreads cp login prs) w3
                  end
                end
              else finish [] w2
            end
          end
        end
    end.
Proof.
  unfold runWatchCycle. rewrite bind_run, loadSettings_run.
  destruct (settingsOfItems (World.sync w)) as [settings|]; [|done].
  destruct (bool_decide (Settings.pat settings = "") || Js.isEmpty (Settings.repos settings));
    [done|].
  rewrite bind_run. unfold currentTime at 1. rewrite bind_run. unfold get at 1.
  rewrite bind_run. cbv zeta.
  destruct (ensureViewerLogin remote (createGithubClient (Settings.pat settings)) w)
    as [[login|e] w1]; [|done].
  rewrite bind_run, send_run.
  destruct (Remote.search remote _) as [found|]; [|done].
  rewrite bind_run, allNodes_run.
  destruct (mapM (λ n, n) found) as [items|]; [|done].
  rewrite bind_run.
  destruct (Settings.enableMentionThreads settings && _).
  - rewrite bind_run, send_run.
    destruct (Remote.nodes remote _) as [fetched|]; [|done].
    rewrite bind_run, allNodes_run.
    destruct (mapM (λ n, n) fetched) as [prs|]; [|done].
    unfold ret at 1. by rewrite cycle_tail_run.
  - unfold ret at 1. by rewrite cycle_tail_run.
Qed.

End CycleRuns.

Lemma settingsOfItems_pat items settings :
  settingsOfItems items = Some settings →
  Settings.pat settings = Sync.pat items ∧ Sync.repos items = Some (Settings.repos settings).
Proof.
  unfold settingsOfItems. destruct (Sync.repos items); [|done].
  case_bool_decide; [done|]. by intros [= <-].
Qed.

Lemma finish_requests t c w :
  World.requests (saveLastCheckedAt t (mergeCollected c w).2).2 = World.requests w.
Proof.
  destruct (mergeCollected_run c w) as (_ & _ & _ & _ & _ & _ & Hrq & _).
  destruct (saveLastCheckedAt_run t (mergeCollected c w).2) as (_ & _ & _ & _ & _ & Hrq' & _).
  cbv zeta in *. by rewrite Hrq', Hrq.
Qed.

(** ** The requests of a cycle *)

(** X1. The requests of one cycle, whatever the server answers. The cycle
    only appends to the request log. Every request it sends carries the
    authorization header made of the word token, a space and the stored
    credential. It sends at most one viewer query, then at most one search,
    then at most one review-thread lookup, in this order and none of them
    twice. With a login in the cache it sends no viewer query. When it ends
    with a rejected request, that request is the last one sent and the one
    the server rejected. A skipped cycle sends nothing. *)
Theorem cycle_requests (remote : Remote.t) (w : World.t) :
  let r := runWatchCycle remote w in
  ∃ sent,
    World.requests r.2 = World.requests w ++ sent
    ∧ Forall (λ q, Request.authorization q = "token " +:+ Sync.pat (World.sync w)) sent
    ∧ StronglySorted lt ((λ q, queryRank (Request.query q)) <$> sent)
    ∧ (is_Some (cachedLogin w) → Forall (λ q, Request.query q ≠ GetViewer) sent)
    ∧ (∀ q, r.1 = Throw (RequestRejected q) →
         ∃ rq, last sent = Some rq ∧ Request.query rq = q
               ∧ match q with
                 | GetViewer => Remote.viewer remote rq = None
                 | WatchIssuesAndPRs _ _ _ => Remote.search remote rq = None
                 | WatchReviewThreads _ _ _ => Remote.nodes remote rq = None
                 end)
    ∧ (r.1 = Ok Skipped → sent = []).
Proof.
  intros r. subst r. rewrite runWatchCycle_unfold.
  destruct (settingsOfItems (World.sync w)) as [settings|] eqn:Hs.
  2: { exists []. rewrite app_nil_r. repeat split; try done; constructor. }
  apply settingsOfItems_pat in Hs as [Hpat _]. rewrite <- Hpat.
  destruct (bool_decide (Settings.pat settings = "") || Js.isEmpty (Settings.repos settings)).
  { exists []. rewrite app_nil_r. repeat split; try done; constructor. }
  cbv zeta. rewrite ensureViewerLogin_run.
  destruct (cachedLogin w) as [login|] eqn:Hc; cbv zeta.
  - repeat case_match; cbn [fst snd]; rewrite ?finish_requests; simpl;
      rewrite <- ?app_assoc; (eexists; split; [reflexivity|]);
      (split; [repeat constructor|]); (split; [simpl; repeat constructor|]);
      (split; [intros _; by repeat constructor|]);
      (split; [|done]); intros q [= <-]; eexists; eauto.
  - destruct (Remote.viewer remote _) as [login|] eqn:Hv; cbv beta iota;
      repeat case_match; cbn [fst snd]; rewrite ?finish_requests; simpl;
      rewrite <- ?app_assoc; (eexists; split; [reflexivity|]);
      (split; [repeat constructor|]); (split; [simpl; repeat constructor|]);
      (split; [by intros [? [=]]|]);
      (split; [|done]); intros q [= <-]; eexists; eauto.
Qed.

(** ** The ids of the candidates *)

Lemma toStored_Some d node k s :
  toStored d node k = Some s →
  ∃ e, nodeIdOf node = Some e
       ∧ StoredNotification.id s = kindText k +:+ ":" +:+ e
       ∧ StoredNotification.kind s = k
       ∧ StoredNotification.detectedAt s = d.
Proof.
  unfold toStored, nodeIdOf. destruct (NodeCore.repository node); [|done].
  intros [= <-]. eauto.
Qed.

Lemma toStored_is_Some d node k :
  is_Some (toStored d node k) ↔ is_Some (NodeCore.repository node).
Proof.
  unfold toStored. destruct (NodeCore.repository node); split; intros [? ?]; by eauto.
Qed.

Lemma kind_prefix_inj k1 k2 e1 e2 :
  kindText k1 +:+ ":" +:+ e1 = kindText k2 +:+ ":" +:+ e2 → k1 = k2 ∧ e1 = e2.
Proof.
  destruct k1, k2; cbv [kindText String.append]; intros H;
    try discriminate H; by simplify_eq.
Qed.

(** X2. The id that [toStored] builds determines the kind and the node id
    it was built from: two stored notifications with the same id, built on
    whatever detection dates, have the same kind and come from nodes with
    the same node id (the id of the node or, without one, the text
    owner/repo#number). *)
Theorem stored_id_injective (d1 d2 : string) (n1 n2 : NodeCore.t)
    (k1 k2 : NotificationKind) (s1 s2 : StoredNotification.t) :
  toStored d1 n1 k1 = Some s1 →
  toStored d2 n2 k2 = Some s2 →
  StoredNotification.id s1 = StoredNotification.id s2 →
  k1 = k2 ∧ nodeIdOf n1 = nodeIdOf n2
  ∧ StoredNotification.kind s1 = StoredNotification.kind s2.
Proof.
  intros (e1 & He1 & Hid1 & Hk1 & _)%toStored_Some (e2 & He2 & Hid2 & Hk2 & _)%toStored_Some Hid.
  rewrite Hid1, Hid2 in Hid. apply kind_prefix_inj in Hid as [-> ->].
  by rewrite He1, He2, Hk1, Hk2.
Qed.

Section Collect.
Variable d : string.






End Collect.

(** ** What a cycle does to the store *)

Lemma mergeCollected_badgeText (collected : list StoredNotification.t) (w : World.t) :
  let w' := (mergeCollected collected w).2 in
  World.badgeText w'
  = if Js.isEmpty collected then World.badgeText w else badgeTextOf (World.badge w').
Proof.
  unfold mergeCollected. destruct collected as [|n collected]; [done|].
  unfold storeMerge, bind, get, modify, setBadge. simpl. done.
Qed.

Lemma finish_store t c w0 w :
  frame w0 w →
  let w' := (saveLastCheckedAt t (mergeCollected c w).2).2 in
  World.stored w' = World.stored w0 ++ List.filter (fresh (World.stored w0)) c
  ∧ World.badge w'
    = World.badge w0 + Z.of_nat (length (List.filter (fresh (World.stored w0)) c))
  ∧ World.readIds w' = World.readIds w0
  ∧ World.sync w' = World.sync w0
  ∧ World.badgeText w'
    = (if Js.isEmpty c then World.badgeText w0 else badgeTextOf (World.badge w')).
Proof.
  intros (Hsync & Hlocal & _ & Htext & _).
  destruct (mergeCollected_run c w) as (_ & Hs & Hb & _ & _ & Hr & _).
  pose proof (mergeCollected_badgeText c w) as Ht.
  assert (World.sync (mergeCollected c w).2 = World.sync w) as Hsy.
  { unfold mergeCollected. destruct c; [done|].
    unfold storeMerge, bind, get, modify, setBadge. done. }
  cbv zeta in *.
  change (World.stored (saveLastCheckedAt t (mergeCollected c w).2).2)
    with (World.stored (mergeCollected c w).2).
  change (World.badge (saveLastCheckedAt t (mergeCollected c w).2).2)
    with (World.badge (mergeCollected c w).2).
  change (World.readIds (saveLastCheckedAt t (mergeCollected c w).2).2)
    with (World.readIds (mergeCollected c w).2).
  change (World.sync (saveLastCheckedAt t (mergeCollected c w).2).2)
    with (World.sync (mergeCollected c w).2).
  change (World.badgeText (saveLastCheckedAt t (mergeCollected c w).2).2)
    with (World.badgeText (mergeCollected c w).2).
  rewrite Ht, Hs, Hb, Hr, Hsy, Hsync, Htext. unfold World.stored, World.badge, World.readIds.
  rewrite Hlocal. done.
Qed.

Section Store.
Variable remote : Remote.t.

(** What any cycle does to the store. *)
Lemma cycle_store (w : World.t) :
  let r := runWatchCycle remote w in
  ∃ collected,
    collectedBy w collected
    ∧ World.stored r.2 = World.stored w ++ List.filter (fresh (World.stored w)) collected
    ∧ World.badge r.2
      = World.badge w + Z.of_nat (length (List.filter (fresh (World.stored w)) collected))
    ∧ World.readIds r.2 = World.readIds w
    ∧ World.sync r.2 = World.sync w
    ∧ World.badgeText r.2
      = (if Js.isEmpty collected then World.badgeText w else badgeTextOf (World.badge r.2))
    ∧ (r.1 ≠ Ok Completed → collected = [] ∧ World.local r.2 = World.local w).
Proof.
  intros r. subst r.
  assert (∀ w', frame w w' →
            ∃ collected, collectedBy w collected
              ∧ World.stored w' = World.stored w ++ List.filter (fresh (World.stored w)) collected
              ∧ World.badge w' = World.badge w
                  + Z.of_nat (length (List.filter (fresh (World.stored w)) collected))
              ∧ World.readIds w' = World.readIds w
              ∧ World.sync w' = World.sync w
              ∧ World.badgeText w'
                = (if Js.isEmpty collected then World.badgeText w
                   else badgeTextOf (World.badge w'))
              ∧ collected = [] ∧ World.local w' = World.local w) as Hframe.
  { intros w' (Hsync & Hlocal & _ & Htext & _). exists [].
    unfold World.stored, World.badge, World.readIds. rewrite Hlocal, Hsync, Htext.
    simpl. rewrite app_nil_r, Z.add_0_r. repeat split; try done. by left. }
  rewrite runWatchCycle_unfold.
  destruct (settingsOfItems (World.sync w)) as [settings|] eqn:Hs.
  2: { destruct (Hframe w (frame_refl w)) as (c & ? & ? & ? & ? & ? & ? & ? & ?).
       exists c. by repeat split. }
  destruct (bool_decide (Settings.pat settings = "") || Js.isEmpty (Settings.repos settings)).
  { destruct (Hframe w (frame_refl w)) as (c & ? & ? & ? & ? & ? & ? & ? & ?).
    exists c. by repeat split. }
  cbv zeta in *.
  pose proof (ensureViewerLogin_frame remote (createGithubClient (Settings.pat settings)) w)
    as Hf1.
  destruct (ensureViewerLogin remote _ w) as [[login|e] w1]; simpl in Hf1.
  2: { destruct (Hframe w1 Hf1) as (c & ? & ? & ? & ? & ? & ? & ? & ?).
       exists c. by repeat split. }
  set (cp := default 0 (World.checkpoint w)) in *.
  set (search := Request.mk _ (WatchIssuesAndPRs _ _ _)) in *.
  assert (frame w (World.addRequest search (Remote.latency remote search) w1)) as Hf2
    by (eapply frame_trans; [done|apply frame_addRequest]).
  set (w2 := World.addRequest search _ w1) in *.
  destruct (Remote.search remote search) as [found|].
  2: { destruct (Hframe w2 Hf2) as (c & ? & ? & ? & ? & ? & ? & ? & ?).
       exists c. by repeat split. }
  destruct (mapM (λ n, n) found) as [items|].
  2: { destruct (Hframe w2 Hf2) as (c & ? & ? & ? & ? & ? & ? & ? & ?).
       exists c. by repeat split. }
  set (buckets := classifyItems settings cp login items) in *.
  destruct (Settings.enableMentionThreads settings) eqn:Hflag; simpl.
  2: { destruct (finish_store (World.clock w)
                   (collect (Date.toISOString (World.clock w)) buckets []) w w2 Hf2)
         as (? & ? & ? & ? & ?).
       eexists. split; [right; exists settings, login, items, []; eauto|].
       by repeat split. }
  destruct (negb (Js.isEmpty (Buckets.updatedPrIds buckets))).
  2: { destruct (finish_store (World.clock w)
                   (collect (Date.toISOString (World.clock w)) buckets []) w w2 Hf2)
         as (? & ? & ? & ? & ?).
       eexists. split; [right; exists settings, login, items, []; eauto|].
       by repeat split. }
  set (review := Request.mk _ (WatchReviewThreads _ _ _)) in *.
  assert (frame w (World.addRequest review (Remote.latency remote review) w2)) as Hf3
    by (eapply frame_trans; [done|apply frame_addRequest]).
  set (w3 := World.addRequest review _ w2) in *.
  destruct (Remote.nodes remote review) as [fetched|].
  2: { destruct (Hframe w3 Hf3) as (c & ? & ? & ? & ? & ? & ? & ? & ?).
       exists c. by repeat split. }
  destruct (mapM (λ n, n) fetched) as [prs|].
  2: { destruct (Hframe w3 Hf3) as (c & ? & ? & ? & ? & ? & ? & ? & ?).
       exists c. by repeat split. }
  destruct (finish_store (World.clock w)
              (collect (Date.toISOString (World.clock w)) buckets
                 (classifyThreads cp login prs)) w w3 Hf3)
    as (? & ? & ? & ? & ?).
  eexists. split; [right; exists settings, login, items, (classifyThreads cp login prs); eauto 10|].
  by repeat split.
Qed.

End Store.

Lemma settingsOfItems_flags items settings :
  settingsOfItems items = Some settings →
  Settings.enableNewItems settings = Sync.enableNewItems items
  ∧ Settings.enableMentions settings = Sync.enableMentions items
  ∧ Settings.enableMentionThreads settings = Sync.enableMentionThreads items
  ∧ Settings.enableAssigneeComments settings = Sync.enableAssigneeComments items.
Proof.
  unfold settingsOfItems. destruct (Sync.repos items); [|done].
  case_bool_decide; [done|]. by intros [= <-].
Qed.

Lemma elem_of_omap_filter_toStored d (k : NotificationKind) (p : Item.t → bool)
    (items : list Item.t) (n : StoredNotification.t) :
  n ∈ omap (λ I, toStored d (Item.core I) k) (List.filter p items) →
  StoredNotification.kind n = k ∧ ∃ I, I ∈ items ∧ p I = true.
Proof.
  intros (I & HI & Hn)%list_elem_of_omap.
  apply toStored_Some in Hn as (_ & _ & _ & Hk & _).
  apply list_elem_of_In, filter_In in HI as [HI Hp]. rewrite <- list_elem_of_In in HI.
  eauto.
Qed.

Lemma collectedBy_enabled w collected n :
  collectedBy w collected → n ∈ collected →
  kindEnabled (World.sync w) (StoredNotification.kind n) = true.
Proof.
  intros [->|(settings & login & items & threads & Hs & -> & Hthreads)] Hn.
  { by apply elem_of_nil in Hn. }
  apply settingsOfItems_flags in Hs as (Hnew & Hmention & Hthread & Hassignee).
  unfold collect in Hn. rewrite classifyItems_eq in Hn. simpl in Hn.
  rewrite !elem_of_app in Hn. destruct Hn as [Hn|[Hn|[Hn|Hn]]].
  - apply elem_of_omap_filter_toStored in Hn as (-> & I & _ & Hp).
    unfold wantsNew in Hp. apply andb_true_iff in Hp as [Hp _]. simpl. congruence.
  - apply elem_of_omap_filter_toStored in Hn as (-> & I & _ & Hp).
    unfold wantsMention in Hp. apply andb_true_iff in Hp as [Hp _]. simpl. congruence.
  - apply elem_of_omap_filter_toStored in Hn as (-> & I & _ & Hp).
    unfold wantsAssignee in Hp. apply andb_true_iff in Hp as [Hp _].
    apply andb_true_iff in Hp as [Hp _]. simpl. congruence.
  - apply list_elem_of_omap in Hn as (t & Ht & Hn).
    apply toStored_Some in Hn as (_ & _ & _ & -> & _). simpl.
    destruct Hthreads as [->|[Hflag _]]; [by apply elem_of_nil in Ht|congruence].
Qed.

(** X3. A cycle that does not complete (it is skipped, or it throws at the
    viewer query, the search, the review-thread lookup or a null node)
    leaves local storage (notifications, read ids, badge counter, persisted
    checkpoint), the settings and the badge text as they were. *)
Theorem incomplete_cycle_stores_nothing (remote : Remote.t) (w : World.t) :
  (runWatchCycle remote w).1 ≠ Ok Completed →
  let w' := (runWatchCycle remote w).2 in
  World.local w' = World.local w
  ∧ World.sync w' = World.sync w
  ∧ World.badgeText w' = World.badgeText w.
Proof.
  intros Hnot w'. subst w'.
  destruct (cycle_store remote w) as (c & _ & _ & _ & _ & Hsync & Htext & Hinc).
  destruct (Hinc Hnot) as [-> Hlocal]. done.
Qed.

(** X4. A cycle only appends to the stored notifications: it removes and
    reorders nothing, whatever its outcome. No appended entry has an id that
    was stored before the cycle; every appended entry is of a kind whose
    flag is on in the settings; the badge counter grows by exactly the
    number of appended entries; the read ids are untouched. So a counter
    that equalled the number of stored notifications still does. *)
Theorem cycle_only_appends (remote : Remote.t) (w : World.t) :
  let w' := (runWatchCycle remote w).2 in
  ∃ appended,
    World.stored w' = World.stored w ++ appended
    ∧ Forall (λ n, StoredNotification.id n ∉ ids (World.stored w)) appended
    ∧ Forall (λ n, kindEnabled (World.sync w) (StoredNotification.kind n) = true) appended
    ∧ World.badge w' = World.badge w + Z.of_nat (length appended)
    ∧ World.readIds w' = World.readIds w
    ∧ (World.badge w = Z.of_nat (length (World.stored w)) →
       World.badge w' = Z.of_nat (length (World.stored w'))).
Proof.
  intros w'. subst w'.
  destruct (cycle_store remote w) as (c & Hc & Hs & Hb & Hr & _).
  exists (List.filter (fresh (World.stored w)) c). split; [done|].
  split; [|split; [|split; [done|split; [done|]]]].
  - apply Forall_forall. intros n [_ Hn]%list_elem_of_In%filter_In.
    unfold fresh in Hn. apply negb_true_iff in Hn. by apply bool_decide_eq_false in Hn.
  - apply Forall_forall. intros n [Hn _]%list_elem_of_In%filter_In.
    apply (collectedBy_enabled w c); [done|by apply list_elem_of_In].
  - intros Hlen. rewrite Hb, Hs, length_app. lia.
Qed.

Lemma pretty_N_go_length (x : N) (s : string) :
  (String.length s ≤ String.length (pretty_N_go x s))%nat.
Proof.
  revert s. induction (N.lt_wf_0 x) as [x _ IH]; intros s.
  destruct (decide (x = 0)%N) as [->|Hx]; [by rewrite pretty_N_go_0|].
  rewrite pretty_N_go_step by lia.
  etrans; [|apply IH; apply N.div_lt; lia]. simpl. lia.
Qed.

Lemma ofNumber_nonempty (n : Z) : 0 < n → Js.ofNumber n ≠ "".
Proof.
  intros Hn Heq. destruct n as [|p|p]; try lia.
  unfold Js.ofNumber, pretty, pretty_Z, pretty, pretty_positive, pretty, pretty_N in Heq.
  simpl in Heq. rewrite pretty_N_go_step in Heq by lia.
  pose proof (pretty_N_go_length (N.pos p `div` 10)
                (String (pretty_N_char (N.pos p `mod` 10)) "")) as Hlen.
  rewrite Heq in Hlen. simpl in Hlen. lia.
Qed.

Lemma badgeTextOf_empty (count : Z) : badgeTextOf count = "" ↔ count ≤ 0.
Proof.
  unfold badgeTextOf. destruct (Z.ltb_spec 0 count) as [Hpos|Hle].
  - split; [|lia]. intros H. by apply ofNumber_nonempty in H.
  - split; [lia|done].
Qed.

Lemma cycle_badgeShown (remote : Remote.t) (w : World.t) :
  badgeShown w → badgeShown (runWatchCycle remote w).2.
Proof.
  unfold badgeShown. intros Hw.
  destruct (cycle_store remote w) as (c & _ & Hs & Hb & _ & _ & Htext & _).
  rewrite Htext. destruct c as [|n c]; simpl; [|done].
  simpl in Hb. rewrite Hb, Z.add_0_r. done.
Qed.

(** X5. The badge shows the stored counter. A cycle that starts with the
    badge text equal to the text [setBadge] makes of the stored counter
    ends with it so, also when it merges nothing and never calls
    [setBadge]; an acknowledgement always ends with it so. In such a state
    the badge is hidden (empty text) exactly when the counter is not
    positive. *)
Theorem badge_shows_counter (remote : Remote.t) (id : string) (w : World.t) :
  (badgeShown w → badgeShown (runWatchCycle remote w).2)
  ∧ badgeShown (markAsReadAndUpdate id w)
  ∧ (badgeShown w → (World.badgeText w = "" ↔ World.badge w ≤ 0)).
Proof.
  split; [|split].
  - apply cycle_badgeShown.
  - done.
  - unfold badgeShown. intros ->. apply badgeTextOf_empty.
Qed.

(** ** The viewer login *)

Lemma finish_runtime t c w :
  Runtime.viewerLogin (World.runtimeState (saveLastCheckedAt t (mergeCollected c w).2).2)
  = Runtime.viewerLogin (World.runtimeState w).
Proof.
  destruct (mergeCollected_run c w) as (_ & _ & _ & Hrt & _). cbv zeta in Hrt.
  change (Runtime.viewerLogin (World.runtimeState (saveLastCheckedAt t (mergeCollected c w).2).2))
    with (Runtime.viewerLogin (World.runtimeState (mergeCollected c w).2)).
  by rewrite Hrt.
Qed.

Lemma finish_cachedLogin t c w :
  cachedLogin (saveLastCheckedAt t (mergeCollected c w).2).2 = cachedLogin w.
Proof. unfold cachedLogin. by rewrite finish_runtime. Qed.

(** X6. A login in the cache is kept and used: after a cycle, whatever its
    outcome, the cache holds the same login, and every request the cycle
    sent was made for that login (none of them is a viewer query). *)
Theorem cached_login_is_kept (remote : Remote.t) (w : World.t) (login : string) :
  cachedLogin w = Some login →
  let r := runWatchCycle remote w in
  cachedLogin r.2 = Some login
  ∧ ∃ sent,
      World.requests r.2 = World.requests w ++ sent
      ∧ Forall (λ q, queryLogin (Request.query q) = Some login) sent.
Proof.
  intros Hc r. subst r. rewrite runWatchCycle_unfold.
  destruct (settingsOfItems (World.sync w)) as [settings|].
  2: { split; [done|]. exists []. by rewrite app_nil_r. }
  destruct (bool_decide (Settings.pat settings = "") || Js.isEmpty (Settings.repos settings)).
  { split; [done|]. exists []. by rewrite app_nil_r. }
  cbv zeta. rewrite ensureViewerLogin_run, Hc.
  repeat case_match; cbn [fst snd]; rewrite ?finish_cachedLogin, ?finish_requests;
    (split; [exact Hc|]); simpl; rewrite <- ?app_assoc;
    (eexists; split; [reflexivity|]); by repeat constructor.
Qed.

(** X7. With complete settings and no login in the cache, a cycle whose
    viewer query is answered with a non-empty login sends that query first
    and leaves the login in the cache however the cycle ends (also when the
    search or the lookup that follows is rejected); every later request of
    the cycle is made for that login. *)
Theorem resolved_login_is_cached (remote : Remote.t) (w : World.t) (settings : Settings.t)
    (login : string) :
  settingsOfItems (World.sync w) = Some settings →
  Settings.repos settings ≠ [] →
  cachedLogin w = None →
  Remote.viewer remote (Request.mk (createGithubClient (Settings.pat settings)) GetViewer)
  = Some login →
  login ≠ "" →
  let r := runWatchCycle remote w in
  cachedLogin r.2 = Some login
  ∧ ∃ sent,
      World.requests r.2
      = World.requests w
        ++ Request.mk (createGithubClient (Settings.pat settings)) GetViewer :: sent
      ∧ Forall (λ q, queryLogin (Request.query q) = Some login) sent.
Proof.
  intros Hs Hrepos Hc Hv Hlogin r. subst r. rewrite runWatchCycle_unfold, Hs.
  assert (Settings.pat settings ≠ "") as Hpat.
  { unfold settingsOfItems in Hs. destruct (Sync.repos (World.sync w)); [|done].
    case_bool_decide; [done|]. by injection Hs as <-. }
  rewrite bool_decide_eq_false_2 by done.
  destruct (Settings.repos settings) as [|r0 rs] eqn:Hr; [done|]. simpl orb. cbv iota.
  cbv zeta. rewrite ensureViewerLogin_run, Hc. cbv zeta. rewrite Hv.
  set (w1 := World.setRuntimeState _ _).
  assert (cachedLogin w1 = Some login) as Hc1.
  { unfold cachedLogin. simpl. by rewrite bool_decide_eq_false_2. }
  repeat case_match; cbn [fst snd]; rewrite ?finish_cachedLogin, ?finish_requests;
    (split; [exact Hc1|]); simpl; rewrite <- ?app_assoc; simpl;
    (eexists; split; [reflexivity|]); by repeat constructor.
Qed.

(** ** The signals of the first pass *)

Section Signals.
Variable login : string.

Lemma textIncludes_iff (t : option string) :
  textIncludes t (mentionToken login) = true ↔ ∃ body, t = Some body ∧ mentions login body.
Proof.
  unfold textIncludes, mentions. destruct t as [s|].
  - rewrite andb_true_iff, negb_true_iff, bool_decide_eq_false, includes_spec. split.
    + intros [_ (a & b & ->)]. eauto.
    + intros (body & [= <-] & a & b & ->). split; [by destruct a|eauto].
  - split; [done|]. by intros (? & ? & _).
Qed.

Lemma hasMention_iff (I : Item.t) :
  hasMention login I = true
  ↔ (∃ body, Item.body I = Some body ∧ mentions login body)
    ∨ (∃ c body, c ∈ Item.comments I ∧ Comment.body c = Some body ∧ mentions login body).
Proof.
  unfold hasMention, textTargets. rewrite existsb_exists. split.
  - intros (t & Ht & Hinc). apply textIncludes_iff in Hinc as (body & -> & Hm).
    apply list_elem_of_In, elem_of_cons in Ht as [Ht|Ht]; [left; eauto|right].
    apply list_elem_of_fmap in Ht as (c & Hc & Hin).
    destruct (Comment.body c) as [cb|] eqn:Hcb; simpl in Hc.
    + injection Hc as ->. eauto.
    + injection Hc as ->. destruct Hm as ([|] & ? & ?); done.
  - intros [(body & Hb & Hm)|(c & body & Hc & Hb & Hm)].
    + exists (Some body). split; [rewrite <- Hb; by left|].
      apply textIncludes_iff. eauto.
    + exists (Some body). split.
      * apply list_elem_of_In, elem_of_cons. right. apply list_elem_of_fmap.
        exists c. by rewrite Hb.
      * apply textIncludes_iff. eauto.
Qed.

End Signals.


(** X8. The mention candidates of the first pass. A fetched item is a
    mention candidate exactly when the mention flag is on and the body of
    the item, or the body of one of its fetched comments, contains the
    text at-sign followed by the login. The checkpoint plays no part: the
    candidates are the same for any two checkpoints, so an item that
    mentions the viewer is a candidate in every cycle that fetches it. *)
Theorem mention_candidates (settings : Settings.t) (C C' : Z) (login : string)
    (items : list Item.t) (I : Item.t) :
  (I ∈ Buckets.mentionItems (classifyItems settings C login items)
   ↔ I ∈ items ∧ Settings.enableMentions settings = true
     ∧ ((∃ body, Item.body I = Some body ∧ mentions login body)
        ∨ (∃ c body, c ∈ Item.comments I ∧ Comment.body c = Some body
                     ∧ mentions login body)))
  ∧ Buckets.mentionItems (classifyItems settings C login items)
    = Buckets.mentionItems (classifyItems settings C' login items).
Proof.
  rewrite !classifyItems_eq. simpl. split; [|done].
  rewrite list_elem_of_In, filter_In, <- list_elem_of_In. unfold wantsMention.
  rewrite andb_true_iff, hasMention_iff. tauto.
Qed.

(** X9. The assignee candidates of the first pass. A fetched item is an
    assignee candidate exactly when the flag is on, the login is among the
    assignees fetched for the item, and one of its fetched comments was
    updated strictly after the checkpoint. *)
Theorem assignee_candidates (settings : Settings.t) (C : Z) (login : string)
    (items : list Item.t) (I : Item.t) :
  I ∈ Buckets.assigneeCommentItems (classifyItems settings C login items)
  ↔ I ∈ items ∧ Settings.enableAssigneeComments settings = true
    ∧ login ∈ Item.assignees I
    ∧ ∃ c, c ∈ Item.comments I ∧ C < Comment.updatedAt c.
Proof.
  rewrite classifyItems_eq. simpl.
  rewrite list_elem_of_In, filter_In, <- list_elem_of_In. unfold wantsAssignee.
  rewrite !andb_true_iff. unfold hasAssigneeMe, hasNewComment. rewrite !existsb_exists.
  split.
  - intros (HI & (Hflag & a & Ha & Heq) & c & Hc & Hlt).
    apply bool_decide_eq_true in Heq as ->. apply Z.ltb_lt in Hlt.
    rewrite <- list_elem_of_In in Ha. rewrite <- list_elem_of_In in Hc. eauto 10.
  - intros (HI & Hflag & Ha & c & Hc & Hlt). split; [done|]. split; [split; [done|]|].
    + exists login. rewrite <- list_elem_of_In. by rewrite bool_decide_eq_true.
    + exists c. rewrite <- list_elem_of_In. by rewrite Z.ltb_lt.
Qed.

(** ** Acknowledgement and the store *)

Lemma foldl_setAdd_NoDup (acc l : list string) :
  NoDup acc → NoDup (foldl Js.setAdd acc l).
Proof.
  revert acc. induction l as [|x l IH]; intros acc Hacc; simpl; [done|].
  apply IH. unfold Js.setAdd, Js.setHas. case_bool_decide; [done|].
  apply NoDup_app. split; [done|]. split; [|apply NoDup_singleton].
  intros y Hy ->%list_elem_of_singleton. done.
Qed.

Lemma newSet_NoDup (l : list string) : NoDup (Js.newSet l).
Proof. apply foldl_setAdd_NoDup. constructor. Qed.

Lemma readSet_elem (id : string) (l : list string) (x : string) :
  x ∈ (if negb (Js.setHas (Js.newSet l) id) then Js.setAdd (Js.newSet l) id
       else Js.newSet l)
  ↔ x = id ∨ x ∈ l.
Proof.
  unfold Js.setAdd, Js.setHas.
  destruct (bool_decide (id ∈ Js.newSet l)) eqn:Hin; simpl.
  - apply bool_decide_eq_true in Hin. rewrite newSet_elem in Hin.
    rewrite newSet_elem. split; [by right|]. by intros [->|?].
  - rewrite elem_of_app, list_elem_of_singleton, newSet_elem. tauto.
Qed.

Lemma markAsReadAndUpdate_stored (id : string) (w : World.t) :
  World.stored (markAsReadAndUpdate id w)
  = filter (λ n, StoredNotification.id n ≠ id
                 ∧ StoredNotification.id n ∉ World.readIds w) (World.stored w).
Proof.
  unfold markAsReadAndUpdate, World.stored at 1. simpl.
  fold (World.stored w) (World.readIds w).
  induction (World.stored w) as [|n l IH]; [done|].
  rewrite filter_cons. simpl. rewrite IH.
  unfold Js.setHas at 1. case_bool_decide as Hn; simpl.
  - apply readSet_elem in Hn. rewrite decide_False; [done|].
    intros [? ?]. by destruct Hn.
  - rewrite readSet_elem in Hn. rewrite decide_True; [done|]. tauto.
Qed.

Lemma markAsReadAndUpdate_read (id : string) (w : World.t) (x : string) :
  x ∈ World.readIds (markAsReadAndUpdate id w) ↔ x = id ∨ x ∈ World.readIds w.
Proof.
  unfold markAsReadAndUpdate, World.readIds at 1. simpl. apply readSet_elem.
Qed.

Lemma markAsReadAndUpdate_read_gone (id : string) (w : World.t) (x : string) :
  x ∈ World.readIds (markAsReadAndUpdate id w) →
  x ∉ ids (World.stored (markAsReadAndUpdate id w)).
Proof.
  intros Hx (n & -> & Hn)%list_elem_of_fmap. rewrite markAsReadAndUpdate_stored in Hn.
  apply list_elem_of_filter in Hn as [[Hne Hnotin] _].
  apply markAsReadAndUpdate_read in Hx. tauto.
Qed.

(** X10. What an acknowledgement leaves behind. The stored notifications
    are those stored before whose id is neither the acknowledged id nor one
    of the read ids, in their order: opening one notification also removes
    every stored entry with the same id and every stored entry whose id was
    read earlier. The read ids become a duplicate-free list holding the
    acknowledged id and the ids read before, and nothing else; no stored
    notification has a read id. *)
Theorem acknowledge_removes_read (id : string) (w : World.t) :
  let w' := markAsReadAndUpdate id w in
  World.stored w'
  = filter (λ n, StoredNotification.id n ≠ id
                 ∧ StoredNotification.id n ∉ World.readIds w) (World.stored w)
  ∧ NoDup (World.readIds w')
  ∧ (∀ x, x ∈ World.readIds w' ↔ x = id ∨ x ∈ World.readIds w)
  ∧ (∀ x, x ∈ World.readIds w' → x ∉ ids (World.stored w')).
Proof.
  intros w'. subst w'.
  split; [apply markAsReadAndUpdate_stored|].
  split; [|split; [apply markAsReadAndUpdate_read|apply markAsReadAndUpdate_read_gone]].
  unfold markAsReadAndUpdate, World.readIds. simpl.
  destruct (negb _); [|apply newSet_NoDup].
  unfold Js.setAdd. destruct (Js.setHas _ id) eqn:Hhas; [apply newSet_NoDup|].
  apply NoDup_app. split; [apply newSet_NoDup|]. split; [|apply NoDup_singleton].
  intros y Hy ->%list_elem_of_singleton. unfold Js.setHas in Hhas.
  by apply bool_decide_eq_false in Hhas.
Qed.

(** X11. An acknowledged notification that is detected again comes back:
    the merge does not consult the read ids. After a notification is
    acknowledged, a merge of a candidate with the same id appends the
    candidate and adds 1 to the badge counter, although its id is among
    the read ids. *)
Theorem acknowledged_notification_returns (n : StoredNotification.t) (w : World.t) :
  let w1 := markAsReadAndUpdate (StoredNotification.id n) w in
  let w2 := (mergeCollected [n] w1).2 in
  StoredNotification.id n ∈ World.readIds w2
  ∧ World.stored w2 = World.stored w1 ++ [n]
  ∧ World.badge w2 = World.badge w1 + 1.
Proof.
  intros w1 w2.
  destruct (mergeCollected_run [n] w1) as (_ & Hs & Hb & _ & _ & Hr & _).
  fold w2 in Hs, Hb, Hr.
  assert (StoredNotification.id n ∈ World.readIds w1) as Hin
    by (apply markAsReadAndUpdate_read; by left).
  assert (fresh (World.stored w1) n = true) as Hfresh.
  { unfold fresh. rewrite bool_decide_eq_false_2; [done|].
    by apply markAsReadAndUpdate_read_gone. }
  simpl in Hs, Hb. rewrite Hfresh in Hs, Hb. simpl in Hb.
  rewrite Hr. split; [done|]. split; [done|lia].
Qed.

(** X12. Acknowledging an id that is not stored, in a state where no stored
    notification has a read id: the stored notifications stay as they are,
    the id joins the read ids, and the badge counter is still lowered by 1
    (not below 0), although nothing was removed. *)
Theorem acknowledge_unknown_id (id : string) (w : World.t) :
  id ∉ ids (World.stored w) →
  (∀ x, x ∈ World.readIds w → x ∉ ids (World.stored w)) →
  let w' := markAsReadAndUpdate id w in
  World.stored w' = World.stored w
  ∧ id ∈ World.readIds w'
  ∧ World.badge w' = Z.max 0 (World.badge w - 1).
Proof.
  intros Hid Hread w'. subst w'.
  split; [|split; [apply markAsReadAndUpdate_read; by left|done]].
  rewrite markAsReadAndUpdate_stored. unfold ids in *.
  induction (World.stored w) as [|n l IH]; [done|].
  rewrite filter_cons. rewrite decide_True.
  - f_equal. apply IH.
    + intros Hin. apply Hid. rewrite fmap_cons. by right.
    + intros x Hx Hin. apply (Hread x Hx). rewrite fmap_cons. by right.
  - split.
    + intros Heq. apply Hid. rewrite fmap_cons, <- Heq. by left.
    + intros Hin. apply (Hread _ Hin). rewrite fmap_cons. by left.
Qed.

(** ** The popup's groups *)

Section GroupFacts.
Variable time : string → Z.

Lemma insert_Permutation x l : JsSort.insert (byDetectedDesc time) x l ≡ₚ x :: l.
Proof.
  induction l as [|y l IH]; simpl; [done|].
  destruct (byDetectedDesc time x y <=? 0); [done|]. rewrite IH. apply Permutation_swap.
Qed.

Lemma sort_Permutation l : JsSort.sort (byDetectedDesc time) l ≡ₚ l.
Proof.
  induction l as [|x l IH]; simpl; [done|].
  fold (JsSort.sort (byDetectedDesc time) l). by rewrite insert_Permutation, IH.
Qed.

Lemma insert_sorted x l :
  StronglySorted (newerFirst time) l → StronglySorted (newerFirst time) (JsSort.insert (byDetectedDesc time) x l).
Proof.
  induction 1 as [|y l Hl IH Hy]; simpl; [by repeat constructor|].
  unfold byDetectedDesc at 1. destruct (Z.leb_spec
    (time (StoredNotification.detectedAt y) - time (StoredNotification.detectedAt x)) 0).
  - constructor; [by constructor|]. constructor; [unfold newerFirst; lia|].
    eapply Forall_impl; [exact Hy|]. unfold newerFirst. intros z ?. lia.
  - constructor; [done|]. rewrite insert_Permutation. constructor; [|done].
    unfold newerFirst. lia.
Qed.

Lemma sort_sorted l : StronglySorted (newerFirst time) (JsSort.sort (byDetectedDesc time) l).
Proof.
  induction l as [|x l IH]; simpl; [constructor|]. by apply insert_sorted.
Qed.

Lemma insert_stable t x l :
  List.filter (detectedAtTime time t) (JsSort.insert (byDetectedDesc time) x l)
  = List.filter (detectedAtTime time t) (x :: l).
Proof.
  induction l as [|y l IH]; [done|]. simpl JsSort.insert.
  unfold byDetectedDesc at 1. destruct (Z.leb_spec
    (time (StoredNotification.detectedAt y) - time (StoredNotification.detectedAt x)) 0);
    [done|].
  simpl. simpl in IH. rewrite IH. unfold detectedAtTime.
  repeat case_bool_decide; try done. lia.
Qed.

Lemma sort_stable t l :
  List.filter (detectedAtTime time t) (JsSort.sort (byDetectedDesc time) l)
  = List.filter (detectedAtTime time t) l.
Proof.
  induction l as [|x l IH]; [done|]. simpl JsSort.sort.
  fold (JsSort.sort (byDetectedDesc time) l). rewrite insert_stable. simpl. by rewrite IH.
Qed.

Lemma filter_partition_Permutation {A} (p : A → bool) (l : list A) :
  List.filter p l ++ List.filter (λ x, negb (p x)) l ≡ₚ l.
Proof.
  induction l as [|x l IH]; simpl; [done|]. destruct (p x); simpl.
  - by rewrite IH.
  - rewrite <- Permutation_middle. by rewrite IH.
Qed.

Lemma groupByType_Permutation (items : list StoredNotification.t) :
  GroupedNotifications.prs (groupByType time items)
  ++ GroupedNotifications.issues (groupByType time items) ≡ₚ items.
Proof.
  unfold groupByType. simpl. rewrite !sort_Permutation.
  apply filter_partition_Permutation.
Qed.

(** X13. [groupByType] splits and sorts without losing anything. The two
    groups together are a permutation of the given list; the first holds
    only pull requests and the second none; each group is ordered by
    detection time, newest first; and notifications detected at the same
    time keep, within their group, the order they had in the given list
    (the sort is stable). *)
Theorem groupByType_sorts (items : list StoredNotification.t) :
  let g := groupByType time items in
  GroupedNotifications.prs g ++ GroupedNotifications.issues g ≡ₚ items
  ∧ Forall (λ n, StoredNotification.isPullRequest n = true) (GroupedNotifications.prs g)
  ∧ Forall (λ n, StoredNotification.isPullRequest n = false) (GroupedNotifications.issues g)
  ∧ StronglySorted (newerFirst time) (GroupedNotifications.prs g)
  ∧ StronglySorted (newerFirst time) (GroupedNotifications.issues g)
  ∧ (∀ t,
       List.filter (detectedAtTime time t) (GroupedNotifications.prs g)
       = List.filter (detectedAtTime time t)
           (List.filter (λ n, StoredNotification.isPullRequest n) items)
       ∧ List.filter (detectedAtTime time t) (GroupedNotifications.issues g)
         = List.filter (detectedAtTime time t)
             (List.filter (λ n, negb (StoredNotification.isPullRequest n)) items)).
Proof.
  intros g. subst g. unfold groupByType. simpl.
  split; [|split; [|split; [|split; [|split]]]].
  - apply groupByType_Permutation.
  - rewrite sort_Permutation. apply Forall_forall.
    by intros n [_ ?]%list_elem_of_In%filter_In.
  - rewrite sort_Permutation. apply Forall_forall.
    intros n [_ ?]%list_elem_of_In%filter_In. by apply negb_true_iff.
  - apply sort_sorted.
  - apply sort_sorted.
  - intros t. by rewrite !sort_stable.
Qed.

End GroupFacts.


(** X14. What a cycle appends is shown by the popup. With the settings
    as they are after the cycle, the kind filter of the popup keeps every
    notification that the cycle appended, and each of them is in one of
    the two groups the popup renders. *)
Theorem appended_is_visible (time : string → Z) (remote : Remote.t) (w : World.t) :
  let w' := (runWatchCycle remote w).2 in
  let settings := Some (popupSettingsOf (World.sync w')) in
  ∃ appended,
    World.stored w' = World.stored w ++ appended
    ∧ visibleNotifications settings appended = appended
    ∧ ∀ n, n ∈ appended →
        let g := groupByType time (visibleNotifications settings (World.stored w')) in
        n ∈ GroupedNotifications.prs g ++ GroupedNotifications.issues g.
Proof.
  intros w' settings.
  destruct (cycle_store remote w) as (c & Hc & Hs & _ & _ & Hsync & _).
  fold w' in Hs, Hsync.
  set (appended := List.filter (fresh (World.stored w)) c) in *.
  assert (∀ n, n ∈ appended → isKindEnabled settings (StoredNotification.kind n) = true)
    as Hvis.
  { intros n [Hn _]%list_elem_of_In%filter_In. apply list_elem_of_In in Hn.
    pose proof (collectedBy_enabled w c n Hc Hn) as Hen.
    subst settings. rewrite Hsync. by destruct (StoredNotification.kind n). }
  exists appended. split; [done|]. split.
  - unfold visibleNotifications. clearbody appended. clear Hs.
    induction appended as [|n l IH]; [done|]. cbn [List.filter].
    rewrite Hvis by left. f_equal. apply IH. intros n' Hn'. apply Hvis. by right.
  - intros n Hn g.
    pose proof (groupByType_Permutation time
                  (visibleNotifications settings (World.stored w'))) as Hperm.
    fold g in Hperm. rewrite Hperm. unfold visibleNotifications.
    apply list_elem_of_In, filter_In. split; [|by apply Hvis].
    apply list_elem_of_In. rewrite Hs. apply elem_of_app. by right.
Qed.

(** ** The options page *)

Example parseRepos_example :
  parseRepos ("owner1/repo1" +:+ String JsText.CR (String JsText.LF "")
              +:+ "  owner2/repo2/extra " +:+ JsText.newline +:+ JsText.newline
              +:+ "noslash" +:+ JsText.newline +:+ "/x" +:+ JsText.newline +:+ "y/")
  = [WatchTargetRepo.mk "owner1" "repo1"; WatchTargetRepo.mk "owner2" "repo2"].
Proof. vm_compute. reflexivity. Qed.

Section SplitFacts.
Import JsText.

Lemma split_nonempty sep s : split sep s ≠ [].
Proof.
  destruct s as [|c s]; simpl; [done|]. case_bool_decide; [done|].
  by destruct (split sep s).
Qed.

Lemma split_no_sep sep s : Forall (λ p, hasChar sep p = false) (split sep s).
Proof.
  induction s as [|c s IH]; simpl; [by repeat constructor|].
  case_bool_decide as Hc; [by constructor|].
  destruct (split sep s) as [|h t]; simpl.
  - constructor; [|constructor]. simpl. by rewrite bool_decide_eq_false_2.
  - apply Forall_cons in IH as [Hh Ht]. constructor; [|done].
    simpl. rewrite Hh. by rewrite bool_decide_eq_false_2.
Qed.

Lemma split_whole sep s : hasChar sep s = false → split sep s = [s].
Proof.
  induction s as [|c s IH]; simpl; [done|]. intros [Hc Hs]%orb_false_iff.
  rewrite Hc. by rewrite IH.
Qed.

Lemma split_app sep a b :
  hasChar sep a = false → split sep (a +:+ String sep b) = a :: split sep b.
Proof.
  induction a as [|c a IH].
  - intros _. rewrite app_empty_l. simpl. by rewrite bool_decide_eq_true_2.
  - simpl hasChar. intros [Hc Ha]%orb_false_iff. rewrite app_cons. simpl split.
    rewrite Hc, IH by done. done.
Qed.

Lemma splitLines_line l rest :
  hasChar LF l = false → l = "" ∨ Js.trimEnd l = l →
  splitLines (l +:+ newline +:+ rest) = l :: splitLines rest.
Proof.
  induction l as [|c l IH]; intros Hlf Hend.
  - reflexivity.
  - simpl in Hlf. apply orb_false_iff in Hlf as [Hc Hl].
    destruct Hend as [|Hend]; [done|].
    assert (l = "" ∨ Js.trimEnd l = l) as Hl'.
    { simpl in Hend. destruct (Js.trimEnd l) as [|a r] eqn:Hr.
      - destruct (Js.isWhiteSpace c); [done|]. injection Hend as <-. by left.
      - injection Hend as <-. by right. }
    rewrite app_cons.
    change (splitLines (String c (l +:+ newline +:+ rest)))
      with (if bool_decide (c = LF) then "" :: splitLines (l +:+ newline +:+ rest)
            else match l +:+ newline +:+ rest with
                 | String c' s'' =>
                     if bool_decide (c = CR) && bool_decide (c' = LF)
                     then "" :: splitLines s''
                     else consHead c (splitLines (l +:+ newline +:+ rest))
                 | "" => consHead c (splitLines (l +:+ newline +:+ rest))
                 end).
    rewrite Hc. rewrite (IH Hl Hl').
    destruct l as [|c' l].
    + (* the line is the single character [c], which is not white space *)
      rewrite app_empty_l. unfold newline. rewrite app_cons.
      simpl in Hend. destruct (bool_decide (c = CR)) eqn:Hcr; [|done].
      apply bool_decide_eq_true in Hcr. by subst c.
    + rewrite app_cons. simpl in Hl. apply orb_false_iff in Hl as [Hc' _].
      rewrite Hc'. by rewrite andb_false_r.
Qed.

Lemma splitLines_whole l :
  hasChar LF l = false → l = "" ∨ Js.trimEnd l = l → splitLines l = [l].
Proof.
  induction l as [|c l IH]; intros Hlf Hend; [done|].
  simpl in Hlf. apply orb_false_iff in Hlf as [Hc Hl].
  destruct Hend as [|Hend]; [done|].
  assert (l = "" ∨ Js.trimEnd l = l) as Hl'.
  { simpl in Hend. destruct (Js.trimEnd l) as [|a r] eqn:Hr.
    - destruct (Js.isWhiteSpace c); [done|]. injection Hend as <-. by left.
    - injection Hend as <-. by right. }
  change (splitLines (String c l))
    with (if bool_decide (c = LF) then "" :: splitLines l
          else match l with
               | String c' s'' =>
                   if bool_decide (c = CR) && bool_decide (c' = LF)
                   then "" :: splitLines s''
                   else consHead c (splitLines l)
               | "" => consHead c (splitLines l)
               end).
  rewrite Hc, (IH Hl Hl'). destruct l as [|c' l]; [done|].
  simpl in Hl. apply orb_false_iff in Hl as [Hc' _]. rewrite Hc'.
  by rewrite andb_false_r.
Qed.

Lemma splitLines_join (lines : list string) :
  lines ≠ [] →
  Forall (λ l, hasChar LF l = false ∧ Js.trimEnd l = l) lines →
  splitLines (Js.join newline lines) = lines.
Proof.
  unfold Js.join. induction lines as [|l lines IH]; [done|]. intros _ Hall.
  apply Forall_cons in Hall as [[Hlf Hend] Hall].
  destruct lines as [|l' lines].
  - simpl. by apply splitLines_whole; [|right].
  - change (String.concat newline (l :: l' :: lines))
      with (l +:+ newline +:+ String.concat newline (l' :: lines)).
    rewrite splitLines_line by (done || by right). f_equal. by apply IH.
Qed.

End SplitFacts.

Section ParseFacts.
Import JsText.

Lemma hasChar_app c a b : hasChar c (a +:+ b) = hasChar c a || hasChar c b.
Proof.
  induction a as [|x a IH]; [done|]. rewrite app_cons. simpl.
  by rewrite IH, orb_assoc.
Qed.

Lemma trimEnd_app a b : b ≠ "" → Js.trimEnd b = b → Js.trimEnd (a +:+ b) = a +:+ b.
Proof.
  intros Hb Hend. induction a as [|x a IH]; [done|].
  rewrite app_cons. simpl. rewrite IH.
  destruct (a +:+ b) eqn:Hab; [|done]. by destruct a.
Qed.

Lemma trimStart_app a b : a ≠ "" → Js.trimStart a = a → Js.trimStart (a +:+ b) = a +:+ b.
Proof.
  intros Ha Hstart. destruct a as [|x a]; [done|]. rewrite app_cons. simpl in *.
  destruct (Js.isWhiteSpace x) eqn:Hx; [|done].
  exfalso. clear Ha b.
  assert (∀ s, String.length (Js.trimStart s) ≤ String.length s)%nat as Hlen.
  { induction s as [|y s IH]; simpl; [done|]. destruct (Js.isWhiteSpace y); simpl; lia. }
  specialize (Hlen a). rewrite Hstart in Hlen. simpl in Hlen. lia.
Qed.

Lemma length_omap_le {A B} (f : A → option B) (l : list A) :
  (length (omap f l) ≤ length l)%nat.
Proof.
  induction l as [|x l IH]; [done|]. simpl. destruct (f x); simpl.
  - apply le_n_S. exact IH.
  - etrans; [exact IH|lia].
Qed.

Lemma parseLine_repoLine r : cleanRepo r → parseLine (repoLine r) = Some r.
Proof.
  intros (Ho & Hn & Hso & Hsn & _). unfold parseLine, repoLine.
  change ("/" +:+ WatchTargetRepo.name r) with (String "/" (WatchTargetRepo.name r)).
  rewrite split_app, split_whole by done.
  rewrite !bool_decide_eq_false_2 by done. by destruct r.
Qed.

Lemma repoLine_line r :
  cleanRepo r →
  hasChar LF (repoLine r) = false ∧ Js.trimEnd (repoLine r) = repoLine r
  ∧ Js.trim (repoLine r) = repoLine r ∧ repoLine r ≠ "".
Proof.
  intros (Ho & Hn & _ & _ & Hlo & Hln & Hstart & Hend & _). unfold repoLine.
  assert (Js.trimEnd (WatchTargetRepo.owner r +:+ "/" +:+ WatchTargetRepo.name r)
          = WatchTargetRepo.owner r +:+ "/" +:+ WatchTargetRepo.name r) as Hte.
  { rewrite <- app_assoc3. apply trimEnd_app; [done..|]. done. }
  split; [|split; [done|split]].
  - rewrite !hasChar_app, Hlo, Hln. done.
  - unfold Js.trim. rewrite trimStart_app by done. done.
  - by destruct (WatchTargetRepo.owner r).
Qed.

(** X15. The options page reads back what it shows. For stored target
    repositories whose owner and name are non-empty and made of 7-bit
    characters, hold no slash and no line feed, and do not begin (the
    owner) or end (the name) with white space, [parseRepos] applied to the text the form shows for them (one
    owner/name per line) gives the same repositories in the same order:
    saving the form without touching the field changes nothing. *)
Theorem parseRepos_reposText (repos : list WatchTargetRepo.t) :
  Forall cleanRepo repos → parseRepos (reposText repos) = repos.
Proof.
  intros Hclean. unfold parseRepos, reposText.
  destruct repos as [|r0 rs]; [done|].
  rewrite splitLines_join.
  2: { done. }
  2: { apply Forall_fmap. eapply Forall_impl; [exact Hclean|].
       intros r Hr. simpl. by destruct (repoLine_line r Hr) as (? & ? & _). }
  induction Hclean as [|r rest Hr _ IH]; [done|].
  destruct (repoLine_line r Hr) as (_ & _ & Htrim & Hne).
  rewrite !fmap_cons. cbn [List.filter]. rewrite Htrim.
  rewrite bool_decide_eq_false_2 by done. cbn [negb].
  change (omap parseLine (repoLine r :: ?l)) with
    (match parseLine (repoLine r) with Some y => y :: omap parseLine l | None => omap parseLine l end).
  rewrite parseLine_repoLine by done. f_equal. exact IH.
Qed.

(** X16. What [parseRepos] lets through, for any text: every repository
    it returns has a non-empty owner and a non-empty name, neither of which
    holds a slash (a line with a second slash is cut at it, a line without
    a slash is dropped), and it returns at most one repository per line. *)
Theorem parseRepos_wellformed (text : string) :
  Forall (λ r, WatchTargetRepo.owner r ≠ "" ∧ WatchTargetRepo.name r ≠ ""
               ∧ hasChar "/" (WatchTargetRepo.owner r) = false
               ∧ hasChar "/" (WatchTargetRepo.name r) = false)
    (parseRepos text)
  ∧ (length (parseRepos text) ≤ length (splitLines text))%nat.
Proof.
  unfold parseRepos. split.
  - apply Forall_forall. intros r (line & _ & Hline)%list_elem_of_omap.
    unfold parseLine in Hline. pose proof (split_no_sep "/" line) as Hparts.
    destruct (split "/" line) as [|owner [|name rest]]; [done..|].
    apply Forall_cons in Hparts as [Ho Hparts]. apply Forall_cons in Hparts as [Hn _].
    destruct (bool_decide (owner = "")) eqn:Eo; [done|].
    destruct (bool_decide (name = "")) eqn:En; [done|].
    apply bool_decide_eq_false in Eo, En. by injection Hline as <-.
  - etrans; [apply length_omap_le|]. etrans; [apply List.filter_length_le|].
    by rewrite length_fmap.
Qed.

End ParseFacts.

(** ** Alarms and events *)

(** X17. [setupAlarms] leaves exactly one alarm of the extension's name,
    with the period it read, and leaves every alarm of another name alone;
    setting up twice is the same as the last setup alone. The period is
    never 0: it is the default interval when the credential is empty or the
    repositories are not an array, and the stored interval when the
    settings are complete and the stored interval is not 0. *)
Theorem setupAlarms_replaces (items items' : Sync.t) (alarms : gmap string Z) :
  setupAlarms items alarms !! ALARM_NAME = Some (alarmPeriod items)
  ∧ (∀ name, name ≠ ALARM_NAME → setupAlarms items alarms !! name = alarms !! name)
  ∧ setupAlarms items' (setupAlarms items alarms) = setupAlarms items' alarms
  ∧ alarmPeriod items ≠ 0
  ∧ (Sync.pat items = "" ∨ Sync.repos items = None →
     alarmPeriod items = DEFAULT_INTERVAL_MINUTES)
  ∧ (Sync.pat items ≠ "" → Sync.repos items ≠ None → Sync.intervalMinutes items ≠ 0 →
     alarmPeriod items = Sync.intervalMinutes items).
Proof.
  unfold setupAlarms. split; [apply lookup_insert_eq|]. split.
  { intros name Hne. by rewrite lookup_insert_ne, lookup_delete_ne. }
  split.
  { by rewrite delete_insert_eq, delete_delete_eq. }
  unfold alarmPeriod, settingsOfItems.
  destruct (Sync.repos items) as [repos|]; [|by repeat split; intros].
  case_bool_decide as Hpat; simpl.
  - split; [done|]. split; [done|]. done.
  - destruct (Z.eqb_spec (Sync.intervalMinutes items) 0) as [Hz|Hz].
    + split; [done|]. split; [by intros [?|?]|]. done.
    + split; [done|]. split; [by intros [?|?]|]. done.
Qed.

Lemma markAsReadAndUpdate_frame id w :
  World.runtimeState (markAsReadAndUpdate id w) = World.runtimeState w
  ∧ World.clock (markAsReadAndUpdate id w) = World.clock w
  ∧ World.sync (markAsReadAndUpdate id w) = World.sync w
  ∧ World.requests (markAsReadAndUpdate id w) = World.requests w.
Proof. done. Qed.

Lemma cycle_checkpoint remote w :
  let w' := (runWatchCycle remote w).2 in
  checkpointNotAhead w →
  checkpointNotAhead w' ∧ default 0 (World.checkpoint w) ≤ default 0 (World.checkpoint w').
Proof.
  intros w' Hinv. subst w'. pose proof (runWatchCycle_spec remote w) as Hspec.
  destruct (runWatchCycle remote w) as [[[|]|e] w']; simpl.
  - subst w'. split; [done|lia].
  - apply completedFrom_world in Hspec as (Hcp & _ & Hclock & _).
    unfold checkpointNotAhead in *. rewrite Hcp. simpl. lia.
  - destruct Hspec as (_ & _ & Hcp & _ & Hclock & _).
    unfold checkpointNotAhead in *. rewrite Hcp. lia.
Qed.

Lemma step_sound w e :
  sound w → sound (step w e) ∧ World.sync (step w e) = World.sync w.
Proof.
  intros (Hbadge & Hshown). destruct e as [name remote|id|elapsed|time|]; simpl;
    try by repeat split.
  - unfold onAlarm. case_bool_decide; [|by repeat split].
    destruct (cycle_store remote w) as (c & _ & _ & Hb & _ & Hsync & _).
    repeat split; try done; [lia|by apply cycle_badgeShown].
  - repeat split; try done. rewrite markAsReadAndUpdate_badge. lia.
Qed.

Lemma step_checkpoint w e :
  steady e = true → checkpointNotAhead w →
  checkpointNotAhead (step w e)
  ∧ default 0 (World.checkpoint w) ≤ default 0 (World.checkpoint (step w e)).
Proof.
  intros Hsteady Hcp. destruct e as [name remote|id|elapsed|time|]; simpl;
    try discriminate Hsteady.
  - unfold onAlarm. case_bool_decide; [|by split; [|lia]].
    by apply cycle_checkpoint.
  - destruct (markAsReadAndUpdate_frame id w) as (Hrt & Hclock & _).
    unfold checkpointNotAhead, World.checkpoint in *. rewrite Hrt, Hclock. lia.
  - unfold checkpointNotAhead, World.checkpoint, setClock in *. cbn. lia.
Qed.

(** X18. Whatever happens, in whatever order. Over any sequence of events,
    each handled to its end before the next (alarms of any name with the
    server in any state, whose cycles complete, are skipped or throw;
    acknowledgements; time passing; the clock being set to any time;
    restarts of the service worker), starting from a counter that is not
    negative and a badge that shows it: the counter stays non-negative, the
    badge keeps showing it, and the settings are never written. When,
    moreover, the clock is never set and the service worker never
    restarted, and the checkpoint is not ahead of the clock at the start,
    the checkpoint stays not ahead of the clock and does not move
    backwards. *)
Theorem run_keeps_sound (events : list Event) (w : World.t) :
  0 ≤ World.badge w → badgeShown w →
  let w' := run events w in
  0 ≤ World.badge w' ∧ badgeShown w'
  ∧ World.sync w' = World.sync w
  ∧ (Forall (λ e, steady e = true) events → checkpointNotAhead w →
       checkpointNotAhead w'
       ∧ default 0 (World.checkpoint w) ≤ default 0 (World.checkpoint w')).
Proof.
  intros Hb Hs w'. subst w'.
  assert (sound w) as Hsound by done. clear Hb Hs.
  revert w Hsound. unfold run. induction events as [|e events IH]; intros w Hsound; simpl.
  - destruct Hsound as (? & ?). split; [done|]. split; [done|]. split; [done|].
    intros _ Hcp. split; [done|lia].
  - destruct (step_sound w e Hsound) as (Hsound' & Hsync).
    destruct (IH _ Hsound') as (? & ? & Hsync' & Hsteady).
    split; [done|]. split; [done|]. split; [congruence|].
    intros [He Hall]%Forall_cons Hcp.
    destruct (step_checkpoint w e He Hcp) as [Hcp' Hmono].
    destruct (Hsteady Hall Hcp') as [? ?]. split; [done|lia].
Qed.

(** The two limits are needed: after a restart the checkpoint is gone
    (storage still has it, and the month-old issue is then stored as new),
    and with the clock set back the next cycle saves an earlier checkpoint. *)
Example disturbed_run_moves_checkpoint_back :
  let w1 := run (take 1 Cases.disturbed) Scenario.world in
  let w2 := run (take 2 Cases.disturbed) Scenario.world in
  let w4 := run Cases.disturbed Scenario.world in
  World.checkpoint w1 = Some Scenario.jan2
  ∧ World.checkpoint w2 = None
  ∧ World.persistedCheckpoint w2 = Some Scenario.jan2
  ∧ World.checkpoint w4 = Some Scenario.jan1
  ∧ ids (World.stored w4) = ["mention:I_1"; "new:I_1"]
  ∧ World.badge w4 = 2.
Proof. vm_compute. done. Qed.

(** ** Query Builder: the terms *)

Lemma join_elem (sep x : string) (l : list string) :
  x ∈ l → ∃ a b, Js.join sep l = a +:+ x +:+ b.
Proof.
  unfold Js.join. induction l as [|y l IH]; intros Hx; [by apply elem_of_nil in Hx|].
  apply elem_of_cons in Hx as [->|Hx].
  - destruct l as [|z l]; simpl.
    + exists "", "". by rewrite app_empty_r.
    + exists "". eexists. reflexivity.
  - destruct (IH Hx) as (a & b & Hab). destruct l as [|z l]; [by apply elem_of_nil in Hx|].
    change (String.concat sep (y :: z :: l)) with (y +:+ sep +:+ String.concat sep (z :: l)).
    rewrite Hab. exists (y +:+ sep +:+ a), b. by rewrite !app_assoc3.
Qed.

(** X19. Every target repository is in the search query: for each of the
    repositories, the query contains the term repo:owner/name, and with at
    least one repository the query starts with an opening parenthesis and
    a repo: term (nothing is trimmed away). *)
Theorem buildRepoQuery_has_each_repo (repos : list WatchTargetRepo.t) (C login : string)
    (r : WatchTargetRepo.t) :
  r ∈ repos →
  Js.includes (buildRepoQuery repos C login)
    ("repo:" +:+ WatchTargetRepo.owner r +:+ "/" +:+ WatchTargetRepo.name r) = true
  ∧ Js.startsWith (buildRepoQuery repos C login) "(repo:" = true.
Proof.
  intros Hr. destruct repos as [|r0 rs]; [by apply elem_of_nil in Hr|].
  rewrite buildRepoQuery_cons. split.
  - destruct (join_elem " OR " (repoTerm r) (repoTerm <$> r0 :: rs)) as (a & b & Hab).
    { apply list_elem_of_fmap. eauto. }
    rewrite Hab. apply includes_spec.
    exists ("(" +:+ a), (b +:+ ") " +:+ openAndConditions C login).
    unfold repoTerm. by rewrite !app_assoc3.
  - apply startsWith_spec. rewrite fmap_cons. unfold Js.join.
    destruct (repoTerm <$> rs) as [|t ts]; simpl; unfold repoTerm;
      eexists; flatten_app; reflexivity.
Qed.

(** ** The thread lookup, and the uniqueness of ids *)

(** X20. When the review threads are looked up, and for which pull
    requests. With complete settings, a cached login and a search that is
    answered with nodes none of which is null, the cycle sends the search
    and then: with the thread flag on and at least one fetched node whose
    type name is PullRequest and whose update time is strictly after the
    checkpoint, exactly one lookup, for the ids of those nodes in their
    order; otherwise no further request. *)
Theorem thread_lookup_gate (remote : Remote.t) (w : World.t) (settings : Settings.t)
    (login : string) (items : list Item.t) :
  settingsOfItems (World.sync w) = Some settings →
  Settings.repos settings ≠ [] →
  cachedLogin w = Some login →
  let client := createGithubClient (Settings.pat settings) in
  let cp := default 0 (World.checkpoint w) in
  let iso := Date.toISOString cp in
  let search :=
    Request.mk client
      (WatchIssuesAndPRs (buildRepoQuery (Settings.repos settings) iso login) iso login) in
  Remote.search remote search = Some (Some <$> items) →
  let prIds :=
    (λ n, NodeCore.id (Item.core n))
      <$> List.filter
            (λ n, bool_decide (NodeCore.typename (Item.core n) = Some "PullRequest")
                  && (cp <? Item.updatedAt n)) items in
  World.requests (runWatchCycle remote w).2
  = World.requests w
    ++ search
    :: (if Settings.enableMentionThreads settings && negb (Js.isEmpty prIds)
        then [Request.mk client (WatchReviewThreads prIds iso login)]
        else []).
Proof.
  intros Hs Hrepos Hc client cp iso search Hsearch prIds.
  rewrite runWatchCycle_unfold, Hs.
  assert (Settings.pat settings ≠ "") as Hpat.
  { unfold settingsOfItems in Hs. destruct (Sync.repos (World.sync w)); [|done].
    case_bool_decide; [done|]. by injection Hs as <-. }
  rewrite bool_decide_eq_false_2 by done.
  assert (Js.isEmpty (Settings.repos settings) = false) as ->
    by by destruct (Settings.repos settings).
  simpl orb. cbv iota zeta. rewrite ensureViewerLogin_run, Hc.
  fold client cp iso search. rewrite Hsearch.
  assert (mapM (λ n, n) (Some <$> items) = Some items) as -> by by apply mapM_id_Some.
  rewrite classifyItems_eq. cbn [Buckets.updatedPrIds]. fold prIds.
  change (List.filter (needsThreadCheck cp) items)
    with (List.filter
            (λ n, bool_decide (NodeCore.typename (Item.core n) = Some "PullRequest")
                  && (cp <? Item.updatedAt n)) items).
  fold prIds.
  destruct (Settings.enableMentionThreads settings && negb (Js.isEmpty prIds)).
  - repeat case_match; cbn [fst snd]; rewrite ?finish_requests; simpl;
      by rewrite <- ?app_assoc.
  - cbn [fst snd]. by rewrite finish_requests.
Qed.


(* ================================================================== *)
(** * The further facts on the scenarios *)

(** The id rule at the issue, detected as a mention on two days, the second
    time under its edited title. *)
Lemma stored_id_injective_witness :
  ∃ s1 s2,
    toStored "2024-01-02T00:00:00.000Z" Scenario.issueCore KMention = Some s1
    ∧ toStored "2024-01-03T00:00:00.000Z" Cases.retitled KMention = Some s2
    ∧ s1 ≠ s2
    ∧ StoredNotification.id s1 = StoredNotification.id s2
    ∧ KMention = KMention
    ∧ nodeIdOf Scenario.issueCore = nodeIdOf Cases.retitled
    ∧ StoredNotification.kind s1 = StoredNotification.kind s2.
Proof.
  eexists. eexists.
  split; [reflexivity|]. split; [reflexivity|]. split; [discriminate|].
  split; [reflexivity|].
  exact (stored_id_injective "2024-01-02T00:00:00.000Z" "2024-01-03T00:00:00.000Z"
           Scenario.issueCore Cases.retitled KMention KMention _ _ eq_refl eq_refl eq_refl).
Defined.

(** A cycle whose search is rejected: the viewer was resolved and two
    requests were sent, and storage is as it was. *)
Lemma incomplete_cycle_stores_nothing_witness :
  let r := runWatchCycle Scenario.noSearch Scenario.world in
  r.1 ≠ Ok Completed
  ∧ length (World.requests r.2) = 2%nat
  ∧ World.local r.2 = World.local Scenario.world
  ∧ World.sync r.2 = World.sync Scenario.world
  ∧ World.badgeText r.2 = World.badgeText Scenario.world.
Proof.
  intros r.
  assert (r.1 ≠ Ok Completed) as H by (vm_compute; discriminate).
  split; [exact H|]. split; [vm_compute; reflexivity|].
  exact (incomplete_cycle_stores_nothing Scenario.noSearch Scenario.world H).
Defined.

(** The cached login through a cycle that finds the pull request. *)
Lemma cached_login_is_kept_witness :
  let r := runWatchCycle Scenario.twoThreads Cases.loggedIn in
  cachedLogin Cases.loggedIn = Some "me"
  ∧ cachedLogin r.2 = Some "me"
  ∧ ∃ sent,
      World.requests r.2 = World.requests Cases.loggedIn ++ sent
      ∧ Forall (λ q, queryLogin (Request.query q) = Some "me") sent.
Proof.
  intros r.
  assert (cachedLogin Cases.loggedIn = Some "me") as H by (vm_compute; reflexivity).
  exact (conj H (cached_login_is_kept Scenario.twoThreads Cases.loggedIn "me" H)).
Defined.

(** The login is cached by a cycle whose search is then rejected. *)
Lemma resolved_login_is_cached_witness :
  let r := runWatchCycle Scenario.noSearch Scenario.world in
  cachedLogin Scenario.world = None
  ∧ r.1 = Throw (RequestRejected
                   (WatchIssuesAndPRs
                      (buildRepoQuery (Settings.repos Cases.settings)
                         "2024-01-01T00:00:00.000Z" "me")
                      "2024-01-01T00:00:00.000Z" "me"))
  ∧ cachedLogin r.2 = Some "me".
Proof.
  intros r.
  assert (settingsOfItems (World.sync Scenario.world) = Some Cases.settings) as H1
    by reflexivity.
  assert (Settings.repos Cases.settings ≠ []) as H2 by discriminate.
  assert (cachedLogin Scenario.world = None) as H3 by reflexivity.
  assert (Remote.viewer Scenario.noSearch
            (Request.mk (createGithubClient (Settings.pat Cases.settings)) GetViewer)
          = Some "me") as H4 by reflexivity.
  assert ("me" ≠ "") as H5 by discriminate.
  split; [exact H3|]. split; [vm_compute; reflexivity|].
  exact (proj1 (resolved_login_is_cached Scenario.noSearch Scenario.world Cases.settings
                  "me" H1 H2 H3 H4 H5)).
Defined.

(** An id that was never stored is acknowledged while the issue is
    stored: the issue stays and the badge goes from 1 to 0. *)
Lemma acknowledge_unknown_id_witness :
  let w' := markAsReadAndUpdate "new:I_9" Scenario.found in
("new:I_9" ∉ ids (World.stored Scenario.found))
  ∧ length (World.stored Scenario.found) = 1%nat
  ∧ World.badge Scenario.found = 1
  ∧ World.stored w' = World.stored Scenario.found
  ∧ "new:I_9" ∈ World.readIds w'
  ∧ World.badge w' = Z.max 0 (World.badge Scenario.found - 1).
Proof.
  intros w'.
  assert ("new:I_9" ∉ ids (World.stored Scenario.found)) as H1
    by (apply (bool_decide_unpack _); vm_compute; exact I).
  assert (∀ x, x ∈ World.readIds Scenario.found → x ∉ ids (World.stored Scenario.found))
    as H2.
  { assert (World.readIds Scenario.found = []) as -> by (vm_compute; reflexivity).
    intros x Hx. by apply elem_of_nil in Hx. }
  split; [exact H1|]. split; [vm_compute; reflexivity|]. split; [vm_compute; reflexivity|].
  exact (acknowledge_unknown_id "new:I_9" Scenario.found H1 H2).
Defined.

(** The form's round trip at two repositories. *)
Lemma parseRepos_reposText_witness :
  Forall cleanRepo Cases.repos
  ∧ reposText Cases.repos = "owner1/repo1" +:+ JsText.newline +:+ "octo-org/octo.repo"
  ∧ parseRepos (reposText Cases.repos) = Cases.repos.
Proof.
  assert (Forall cleanRepo Cases.repos) as H.
  { repeat (apply Forall_cons; split); [| |apply Forall_nil];
      unfold cleanRepo; simpl; repeat split; done. }
  exact (conj H (conj eq_refl (parseRepos_reposText Cases.repos H))).
Defined.

(** The invariants over the events of [Cases.events]. *)
Lemma run_keeps_sound_witness :
  let w' := run Cases.events Scenario.world in
  (0 ≤ World.badge Scenario.world ∧ badgeShown Scenario.world)
  ∧ ids (World.stored w') = ["mention:I_1"]
  ∧ World.badge w' = 2
  ∧ 0 ≤ World.badge w' ∧ badgeShown w'
  ∧ World.sync w' = World.sync Scenario.world
  ∧ checkpointNotAhead w'
  ∧ default 0 (World.checkpoint Scenario.world) ≤ default 0 (World.checkpoint w').
Proof.
  intros w'.
  assert (0 ≤ World.badge Scenario.world) as H1 by (vm_compute; discriminate).
  assert (badgeShown Scenario.world) as H2 by reflexivity.
  assert (Forall (λ e, steady e = true) Cases.events) as H3 by (repeat constructor).
  assert (checkpointNotAhead Scenario.world) as H4 by (vm_compute; discriminate).
  split; [exact (conj H1 H2)|]. split; [vm_compute; reflexivity|].
  split; [vm_compute; reflexivity|].
  destruct (run_keeps_sound Cases.events Scenario.world H1 H2) as (Hb & Hs & Hsync & Hcp).
  exact (conj Hb (conj Hs (conj Hsync (Hcp H3 H4)))).
Defined.

(** The second of two repositories in the query. *)
Lemma buildRepoQuery_has_each_repo_witness :
  let r := WatchTargetRepo.mk "octo-org" "octo.repo" in
  let q := buildRepoQuery Cases.repos "2024-01-01T00:00:00.000Z" "me" in
  r ∈ Cases.repos
  ∧ Js.includes q "repo:octo-org/octo.repo" = true
  ∧ Js.startsWith q "(repo:" = true.
Proof.
  intros r q.
  assert (r ∈ Cases.repos) as H by (repeat constructor).
  exact (conj H (buildRepoQuery_has_each_repo Cases.repos "2024-01-01T00:00:00.000Z" "me"
                   r H)).
Defined.

(** The lookup for the one pull request that the search returns. *)
Lemma thread_lookup_gate_witness :
  let client := createGithubClient "ghp_token" in
  let iso := "2024-01-01T00:00:00.000Z" in
  let search :=
    Request.mk client
      (WatchIssuesAndPRs (buildRepoQuery (Settings.repos Cases.settings) iso "me") iso "me") in
  cachedLogin Cases.loggedIn = Some "me"
  ∧ Remote.search Scenario.twoThreads search = Some (Some <$> [Scenario.prItem])
  ∧ World.requests (runWatchCycle Scenario.twoThreads Cases.loggedIn).2
    = World.requests Cases.loggedIn
      ++ [search; Request.mk client (WatchReviewThreads [Some "PR_1"] iso "me")].
Proof.
  intros client iso search.
  assert (settingsOfItems (World.sync Cases.loggedIn) = Some Cases.settings) as H1
    by (vm_compute; reflexivity).
  assert (Settings.repos Cases.settings ≠ []) as H2 by discriminate.
  assert (cachedLogin Cases.loggedIn = Some "me") as H3 by (vm_compute; reflexivity).
  assert (Remote.search Scenario.twoThreads
            (Request.mk (createGithubClient (Settings.pat Cases.settings))
               (WatchIssuesAndPRs
                  (buildRepoQuery (Settings.repos Cases.settings)
                     (Date.toISOString (default 0 (World.checkpoint Cases.loggedIn))) "me")
                  (Date.toISOString (default 0 (World.checkpoint Cases.loggedIn))) "me"))
          = Some (Some <$> [Scenario.prItem])) as H4 by reflexivity.
  split; [exact H3|]. split; [reflexivity|].
  pose proof (thread_lookup_gate Scenario.twoThreads Cases.loggedIn Cases.settings "me"
                [Scenario.prItem] H1 H2 H3 H4) as H.
  cbv zeta in H. rewrite H. vm_compute. reflexivity.
Defined.

